(** * Conway's Game of Life engine ([life.py]): a shallow embedding

    The class [GameOfLife] of [life.py] is embedded as a record with one
    function per method.  Python integers are unbounded, so coordinates,
    grid bounds and the generation counter are [Z]; the attribute
    [live_cells : Set[Tuple[int, int]]] is a [gset (Z * Z)].  A method
    that mutates [self] is a function from the old object to the new one;
    a method in which an exception can arise returns an [outcome].  A
    [for] loop over a list literal or a [range] is a [foldl] over the same
    list; a [for] loop over a set is a [foldl] over [elements].

    Text is ASCII: a [str] is a [string] of one-byte characters, and the
    non-ASCII spaces and digits that [str.strip] and [int] also accept are
    outside the model.  The interpreter's limit on the number of digits
    that [int] and [str] convert is not modelled either. *)

From stdpp Require Import base decidable list list_numbers sorting gmap.
From stdpp Require Import strings pretty.
From Stdlib Require Import ZArith Lia Ascii Floats.

Local Open Scope Z_scope.

(** A grid coordinate, the Python tuple [(x, y)]. *)
Definition cell : Type := Z * Z.

(** ** The Python built-ins the engine calls *)

Module Py.

(** The exceptions that the built-ins used by the engine raise:
    [KeyError] from [set.remove] of an absent element; [ValueError] from
    [int] on an invalid literal (it carries the argument of [int]), and
    from unpacking into two targets an iterable of fewer (it carries how
    many there were) or of more values. *)
Inductive exn : Type :=
| KeyError (key : cell)
| ValueError_invalid_literal (literal : string)
| ValueError_not_enough_values (got : nat)
| ValueError_too_many_values.

(** The result of running a piece of code: it returns or it raises. *)
Inductive outcome (A : Type) : Type :=
| Returned (a : A)
| Raised (e : exn).
Global Arguments Returned {A} a.
Global Arguments Raised {A} e.

Global Instance outcome_ret : MRet outcome := @Returned.
Global Instance outcome_bind : MBind outcome := λ A B f m,
  match m with
  | Returned a => f a
  | Raised e => Raised e
  end.

(** [s.remove(c)] *)
Definition set_remove (s : gset cell) (c : cell) : outcome (gset cell) :=
  if bool_decide (c ∈ s) then Returned (s ∖ {[ c ]}) else Raised (KeyError c).

(** The ASCII characters for which [str.isspace] holds; [str.strip]
    removes them. *)
Definition str_whitespace : list ascii :=
  ["009"; "010"; "011"; "012"; "013"; "028"; "029"; "030"; "031"; " "]%char.

(** The characters [int] skips around a literal (C's [isspace]). *)
Definition int_whitespace : list ascii :=
  ["009"; "010"; "011"; "012"; "013"; " "]%char.

Definition is_space (c : ascii) : bool := bool_decide (c ∈ str_whitespace).
Definition is_int_space (c : ascii) : bool := bool_decide (c ∈ int_whitespace).

Fixpoint lstrip_by (p : ascii → bool) (s : string) : string :=
  match s with
  | EmptyString => EmptyString
  | String c s' => if p c then lstrip_by p s' else s
  end.

Fixpoint rstrip_by (p : ascii → bool) (s : string) : string :=
  match s with
  | EmptyString => EmptyString
  | String c s' =>
      match rstrip_by p s' with
      | EmptyString => if p c then EmptyString else String c EmptyString
      | r => String c r
      end
  end.

(** [s.strip()] *)
Definition strip (s : string) : string :=
  rstrip_by is_space (lstrip_by is_space s).

(** [s.split(sep)] for a one-character separator. *)
Fixpoint split (sep : ascii) (s : string) : list string :=
  match s with
  | EmptyString => [EmptyString]
  | String c s' =>
      if bool_decide (c = sep) then EmptyString :: split sep s'
      else match split sep s' with
           | [] => [String c EmptyString]
           | piece :: pieces => String c piece :: pieces
           end
  end.

(** The value of a decimal digit character, from its code: ["0"] has
    code 48 and ["9"] has code 57. *)
Definition digit_of (c : ascii) : option Z :=
  let code := Z.of_N (N_of_ascii c) in
  if bool_decide (48 ≤ code ≤ 57) then Some (code - 48) else None.

(** The digits of a base-10 literal, read left to right into [acc].  A
    single underscore may separate two digits; [after_digit] records
    that the previous character was a digit. *)
Fixpoint digits_value (acc : Z) (after_digit : bool) (s : string) : option Z :=
  match s with
  | EmptyString => if after_digit then Some acc else None
  | String c s' =>
      match digit_of c with
      | Some d => digits_value (acc * 10 + d) true s'
      | None =>
          if bool_decide (c = "_"%char) && after_digit
          then digits_value acc false s'
          else None
      end
  end.

(** A literal without the surrounding spaces: an optional sign, then the
    digits. *)
Definition signed_value (body : string) : option Z :=
  match body with
  | String "-" digits => Z.opp <$> digits_value 0 false digits
  | String "+" digits => digits_value 0 false digits
  | _ => digits_value 0 false body
  end.

(** [int(s)] for a [str] argument. *)
Definition int (s : string) : outcome Z :=
  match signed_value (rstrip_by is_int_space (lstrip_by is_int_space s)) with
  | Some n => Returned n
  | None => Raised (ValueError_invalid_literal s)
  end.

(** [str(n)] and [f"{n}"] for an [int]: the decimal numeral, with a
    leading minus sign for a negative number. *)
Definition str (n : Z) : string := pretty n.

Definition LF : ascii := "010"%char.
Definition CR : ascii := "013"%char.

(** The lines that iterating over a text file opened for reading yields:
    each ends with its line feed, except possibly the last; a carriage
    return, alone or before a line feed, reads as a line feed. *)
Fixpoint file_lines (content : string) : list string :=
  match content with
  | EmptyString => []
  | String c rest =>
      if bool_decide (c = LF) then String LF EmptyString :: file_lines rest
      else if bool_decide (c = CR) then
        match rest with
        | String c' rest' =>
            if bool_decide (c' = LF)
            then String LF EmptyString :: file_lines rest'
            else String LF EmptyString :: file_lines rest
        | EmptyString => [String LF EmptyString]
        end
      else match file_lines rest with
           | [] => [String c EmptyString]
           | line :: lines => String c line :: lines
           end
  end.

End Py.

(** ** The engine *)

Module Life.
Import Py.

(** The attributes assigned in [GameOfLife.__init__]. *)
Record GameOfLife : Type := mkGame {
  width : Z;
  height : Z;
  live_cells : gset cell;
  generation : Z;
  paused : bool
}.

(** The object with its [live_cells] attribute reassigned. *)
Definition set_live_cells (g : GameOfLife) (s : gset cell) : GameOfLife :=
  mkGame (width g) (height g) s (generation g) (paused g).

(** [GameOfLife(width, height)]: the body is five assignments. *)
Definition __init__ (width height : Z) : outcome GameOfLife :=
  Returned (mkGame width height ∅ 0 true).

(** [0 <= nx < self.width and 0 <= ny < self.height] *)
Definition in_bounds (g : GameOfLife) (nx ny : Z) : bool :=
  bool_decide (0 ≤ nx) && bool_decide (nx < width g)
  && bool_decide (0 ≤ ny) && bool_decide (ny < height g).

(** The list literal [[-1, 0, 1]] both offset loops range over. *)
Definition offsets : list Z := [-1; 0; 1].

(** *** [initialize_random] *)

Section random.
(** The values of [random.random()] and of [density] are floats; the
    method only compares them.  [flt a b] is the test [a < b], and
    [draws k] is the value of the [k]-th call of [random.random()]; the
    state of the generator is the number of calls made so far. *)
Context {float : Type} (flt : float → float → bool) (draws : nat → float).

(** The body of the inner loop, at column [x] of row [y]. *)
Definition random_step (density : float) (y : Z)
    (st : gset cell * nat) (x : Z) : gset cell * nat :=
  let '(live, calls) := st in
  if flt (draws calls) density
  then ({[ (x, y) ]} ∪ live, S calls)
  else (live, S calls).

(** The inner loop, over [range(self.width)]. *)
Definition random_row (g : GameOfLife) (density : float)
    (st : gset cell * nat) (y : Z) : gset cell * nat :=
  foldl (random_step density y) st (seqZ 0 (width g)).

(** Returns the object and the number of calls of [random.random()] made
    so far, [calls] of them before the method ran. *)
Definition initialize_random (g : GameOfLife) (density : float)
    (calls : nat) : GameOfLife * nat :=
  let st := foldl (random_row g density) (∅, calls) (seqZ 0 (height g)) in
  (set_live_cells g st.1, st.2).

End random.

(** *** [clear] *)

Definition clear (g : GameOfLife) : GameOfLife :=
  mkGame (width g) (height g) ∅ 0 (paused g).

(** *** [count_live_neighbors] *)

(** The body of the inner loop: one offset pair [(dx, dy)] updates
    [count]. *)
Definition count_step (g : GameOfLife) (x y dy : Z) (count dx : Z) : Z :=
  if bool_decide (dx = 0) && bool_decide (dy = 0) then count
  else
    let nx := x + dx in
    let ny := y + dy in
    if in_bounds g nx ny then
      if bool_decide ((nx, ny) ∈ live_cells g) then count + 1 else count
    else count.

Definition count_live_neighbors (g : GameOfLife) (x y : Z) : Z :=
  foldl (fun count dy => foldl (count_step g x y dy) count offsets) 0 offsets.

(** *** [next_generation] *)

(** The body of the candidate loop for one offset pair. *)
Definition candidate_step (g : GameOfLife) (x y dy : Z)
    (candidates : gset cell) (dx : Z) : gset cell :=
  let nx := x + dx in
  let ny := y + dy in
  if in_bounds g nx ny then {[ (nx, ny) ]} ∪ candidates else candidates.

(** The two nested offset loops run for one live cell. *)
Definition add_candidates (g : GameOfLife) (candidates : gset cell)
    (c : cell) : gset cell :=
  let '(x, y) := c in
  foldl (fun cs dy => foldl (candidate_step g x y dy) cs offsets)
        candidates offsets.

(** [candidates] after the first loop of [next_generation]. *)
Definition candidates (g : GameOfLife) : gset cell :=
  foldl (add_candidates g) ∅ (elements (live_cells g)).

(** The body of the second loop: Conway's rules for one candidate. *)
Definition rule_step (g : GameOfLife) (new_live_cells : gset cell)
    (c : cell) : gset cell :=
  let '(x, y) := c in
  let live_neighbors := count_live_neighbors g x y in
  if bool_decide ((x, y) ∈ live_cells g)
     && (bool_decide (live_neighbors = 2) || bool_decide (live_neighbors = 3))
  then {[ (x, y) ]} ∪ new_live_cells
  else if bool_decide ((x, y) ∉ live_cells g)
          && bool_decide (live_neighbors = 3)
  then {[ (x, y) ]} ∪ new_live_cells
  else new_live_cells.

Definition next_generation (g : GameOfLife) : GameOfLife :=
  let new_live_cells := foldl (rule_step g) ∅ (elements (candidates g)) in
  mkGame (width g) (height g) new_live_cells (generation g + 1) (paused g).

(** *** [toggle_cell] *)

Definition toggle_cell (g : GameOfLife) (x y : Z) : outcome GameOfLife :=
  if bool_decide ((x, y) ∈ live_cells g) then
    s ← set_remove (live_cells g) (x, y);
    mret (set_live_cells g s)
  else
    mret (set_live_cells g ({[ (x, y) ]} ∪ live_cells g)).

(** *** [save_pattern] *)

(** Python orders tuples of integers lexicographically. *)
Definition tuple_le (a b : cell) : Prop :=
  a.1 < b.1 ∨ (a.1 = b.1 ∧ a.2 ≤ b.2).

Global Instance tuple_le_dec a b : Decision (tuple_le a b).
Proof. unfold tuple_le. apply _. Defined.

(** [sorted(s)] for a set of coordinate pairs. *)
Definition sorted (s : gset cell) : list cell :=
  merge_sort tuple_le (elements s).

(** The f-string [f"{x},{y}\n"]. *)
Definition pattern_line (c : cell) : string :=
  str c.1 +:+ "," +:+ str c.2 +:+ String LF EmptyString.

(** The strings passed to [f.write], in order. *)
Definition pattern_lines (g : GameOfLife) : list string :=
  pattern_line <$> sorted (live_cells g).

(** The files are a map from names to texts.  Opening for writing
    creates the file or empties it; on exit from the [with] block it
    holds what was written.  The object does not change. *)
Definition save_pattern (g : GameOfLife) (filename : string)
    (fs : gmap string string) : gmap string string :=
  <[ filename := foldl String.append EmptyString (pattern_lines g) ]> fs.

(** *** [load_pattern] *)

(** [x, y = map(int, line.split(','))]: [map] is lazy, so the unpacking
    converts the first two pieces, then asks for a third to see that
    there is none, which converts the third piece when there is one. *)
Definition parse_line (line : string) : outcome cell :=
  match split ","%char line with
  | [] => Raised (ValueError_not_enough_values 0)
  | p0 :: rest0 =>
      x ← int p0;
      match rest0 with
      | [] => Raised (ValueError_not_enough_values 1)
      | p1 :: rest1 =>
          y ← int p1;
          match rest1 with
          | [] => mret (x, y)
          | p2 :: _ => _ ← int p2; Raised ValueError_too_many_values
          end
      end
  end.

(** The loop [for line in f].  An exception leaves the loop; the cells
    added before it stay in [self.live_cells]. *)
Fixpoint load_lines (g : GameOfLife) (lines : list string)
    : GameOfLife * option exn :=
  match lines with
  | [] => (g, None)
  | line :: lines' =>
      let line := strip line in
      if bool_decide (line = EmptyString) then load_lines g lines'
      else
        match parse_line line with
        | Raised e => (g, Some e)
        | Returned (x, y) =>
            if in_bounds g x y
            then load_lines (set_live_cells g ({[ (x, y) ]} ∪ live_cells g))
                            lines'
            else load_lines g lines'
        end
  end.

(** What a call of [load_pattern] leaves behind: the object, the lines
    printed, and the exception that left the method, if any. *)
Record loaded : Type := mkLoaded {
  game : GameOfLife;
  printed : list string;
  raised : option exn
}.

(** [FileNotFoundError] is the one exception the method handles.  File
    names are names that [open] accepts: a name that is not in the map
    is the name of a file that does not exist. *)
Definition load_pattern (g : GameOfLife) (filename : string)
    (fs : gmap string string) : loaded :=
  let g := clear g in
  match fs !! filename with
  | None =>
      mkLoaded g
        ["File " +:+ filename +:+ " not found. Starting with empty grid."]
        None
  | Some content =>
      let '(g', e) := load_lines g (file_lines content) in
      mkLoaded g' [] e
  end.

End Life.

(** ** The specification's notions *)

Module LifeSpec.
Import Life.

(** The eight positions of the Moore neighbourhood of [(x, y)]; the
    centre is not one of them. *)
Definition moore_neighborhood (x y : Z) : list cell :=
  [ (x - 1, y - 1); (x, y - 1); (x + 1, y - 1);
    (x - 1, y);                 (x + 1, y);
    (x - 1, y + 1); (x, y + 1); (x + 1, y + 1) ].

(** The cell lies in [0,W)×[0,H). *)
Definition in_grid (W H : Z) (c : cell) : Prop :=
  0 ≤ c.1 < W ∧ 0 ≤ c.2 < H.

(** A position counts as live when it lies inside the grid and belongs to
    the live-cell set; a position outside the grid is dead. *)
Definition live_in_grid (g : GameOfLife) (p : cell) : Prop :=
  in_grid (width g) (height g) p ∧ p ∈ live_cells g.

Global Instance in_grid_dec W H c : Decision (in_grid W H c).
Proof. unfold in_grid. apply _. Defined.

Global Instance live_in_grid_dec g p : Decision (live_in_grid g p).
Proof. unfold live_in_grid. apply _. Defined.

(** Number of live positions in the Moore neighbourhood. *)
Definition moore_count (g : GameOfLife) (x y : Z) : Z :=
  Z.of_nat (length (filter (live_in_grid g) (moore_neighborhood x y))).

(** Contribution of one position to the count: 1 when it is inside the
    grid and live, 0 otherwise. *)
Definition live_at (g : GameOfLife) (nx ny : Z) : Z :=
  if in_bounds g nx ny && bool_decide ((nx, ny) ∈ live_cells g) then 1 else 0.

(** Conway's rule for a cell, given whether it is live and its count. *)
Definition conway (alive : Prop) (n : Z) : Prop :=
  (alive ∧ (n = 2 ∨ n = 3)) ∨ (¬ alive ∧ n = 3).

Global Instance conway_dec alive n `{!Decision alive} :
  Decision (conway alive n).
Proof. unfold conway. apply _. Defined.

(** The test [rule_step] applies to a candidate. *)
Definition rule_holds (g : GameOfLife) (c : cell) : Prop :=
  conway (c ∈ live_cells g) (count_live_neighbors g c.1 c.2).

(** [c] lies in the 3×3 block centred on [s]. *)
Definition adjacent_or_equal (s c : cell) : Prop :=
  (s.1 - 1 ≤ c.1 ≤ s.1 + 1) ∧ (s.2 - 1 ≤ c.2 ≤ s.2 + 1).

(** Every cell of the full W×H grid, row by row. *)
Definition grid_cells (W H : Z) : list cell :=
  y ← seqZ 0 H; x ← seqZ 0 W; [(x, y)].

(** Number of cells of [S] among the eight neighbours of [c]. *)
Definition live_neighbors_in (S : gset cell) (c : cell) : Z :=
  Z.of_nat (length (filter (λ p, p ∈ S) (moore_neighborhood c.1 c.2))).

(** Conway's rule applied to every cell of the full W×H grid. *)
Definition conway_full_grid (W H : Z) (S : gset cell) : gset cell :=
  list_to_set
    (filter (λ c, conway (c ∈ S) (live_neighbors_in S c)) (grid_cells W H)).

(** The position of [(x, y)] in the row-by-row scan of the grid. *)
Definition scan_index (W : Z) (c : cell) : nat :=
  Z.to_nat (c.2 * W + c.1).

End LifeSpec.

(** ** Notions about text *)

Module TextSpec.
Import Py.

(** Every character of the string passes the test. *)
Fixpoint all_chars (p : ascii → bool) (s : string) : bool :=
  match s with
  | EmptyString => true
  | String c s' => p c && all_chars p s'
  end.

(** The characters of a decimal numeral: the digits and the minus sign. *)
Definition numeral_char (c : ascii) : bool :=
  match digit_of c with
  | Some _ => true
  | None => bool_decide (c = "-"%char)
  end.

(** The characters of the text of a pattern line before its line feed. *)
Definition pattern_char (c : ascii) : bool :=
  numeral_char c || bool_decide (c = ","%char).

(** Strict lexicographic order on coordinate pairs, x first. *)
Definition tuple_lt (a b : cell) : Prop :=
  a.1 < b.1 ∨ (a.1 = b.1 ∧ a.2 < b.2).

End TextSpec.

(** ** The event loop of [main] *)

Module Main.
Import Py Life.

(** The command-line arguments, as [parse_args] returns them. *)
Record args : Type := mkArgs {
  a_width : Z;
  a_height : Z;
  a_fps : Z;
  a_cell_size : Z
}.

(** The keys the loop tests [event.key] against, and any other key. *)
Inductive key : Type :=
| K_SPACE | K_n | K_c | K_r | K_s | K_l | K_other.

(** The events the loop tests [event.type] against, with the attributes
    it reads of each, and any other event. *)
Inductive event : Type :=
| QUIT
| KEYDOWN (k : key)
| MOUSEBUTTONDOWN (button : Z) (pos : Z * Z)
| MOUSEBUTTONUP (button : Z)
| MOUSEMOTION (pos : Z * Z)
| OTHER.

(** The local variables of [main] that the loop changes, and the world
    the engine acts on: the files, the number of calls of
    [random.random()] made so far, and the lines printed. *)
Record loop_state : Type := mkLoop {
  the_game : GameOfLife;
  running : bool;
  dragging : bool;
  drawing_live : bool;
  files : gmap string string;
  random_calls : nat;
  stdout : list string
}.

(** The exceptions that leave [main]: the division by a cell size of 0,
    and what an engine method raised. *)
Inductive uncaught : Type :=
| ZeroDivisionError
| FromEngine (e : exn).

Definition set_game (s : loop_state) (g : GameOfLife) : loop_state :=
  mkLoop g (running s) (dragging s) (drawing_live s) (files s)
         (random_calls s) (stdout s).

(** [game.paused = not game.paused] *)
Definition flip_paused (g : GameOfLife) : GameOfLife :=
  mkGame (width g) (height g) (live_cells g) (generation g) (negb (paused g)).

(** [a // b] on integers: the floor of the quotient, which is what
    [Z.div] gives for either sign of [b]; [b = 0] raises. *)
Definition floordiv (a b : Z) : option Z :=
  if bool_decide (b = 0) then None else Some (a `div` b).

(** [event.pos[0] // cell_size, event.pos[1] // cell_size] *)
Definition cell_at (a : args) (pos : Z * Z) : option cell :=
  x ← floordiv pos.1 (a_cell_size a);
  y ← floordiv pos.2 (a_cell_size a);
  Some (x, y).

(** [game.toggle_cell(x, y)] as a statement of the loop. *)
Definition toggle (s : loop_state) (x y : Z) : loop_state * option uncaught :=
  match toggle_cell (the_game s) x y with
  | Returned g => (set_game s g, None)
  | Raised e => (s, Some (FromEngine e))
  end.

Section loop.
(** The floats, their comparison and the draws are those of
    [initialize_random]; [default_density] is its default, the float
    0.2. *)
Context {float : Type} (flt : float → float → bool) (draws : nat → float).
Variable default_density : float.

(** The [if]/[elif] chain on [event.key]. *)
Definition handle_key (s : loop_state) (k : key)
    : loop_state * option uncaught :=
  let g := the_game s in
  match k with
  | K_SPACE => (set_game s (flip_paused g), None)
  | K_n => if paused g then (set_game s (next_generation g), None)
           else (s, None)
  | K_c => (set_game s (clear g), None)
  | K_r =>
      let r := initialize_random flt draws g default_density
                                 (random_calls s) in
      (mkLoop r.1 (running s) (dragging s) (drawing_live s) (files s)
              r.2 (stdout s), None)
  | K_s =>
      (mkLoop g (running s) (dragging s) (drawing_live s)
              (save_pattern g "patterns.txt" (files s))
              (random_calls s) (stdout s), None)
  | K_l =>
      let r := load_pattern g "patterns.txt" (files s) in
      (mkLoop (game r) (running s) (dragging s) (drawing_live s) (files s)
              (random_calls s) (stdout s ++ printed r),
       FromEngine <$> raised r)
  | K_other => (s, None)
  end.

(** The body of [for event in pygame.event.get()]. *)
Definition handle_event (a : args) (s : loop_state) (ev : event)
    : loop_state * option uncaught :=
  match ev with
  | QUIT =>
      (mkLoop (the_game s) false (dragging s) (drawing_live s) (files s)
              (random_calls s) (stdout s), None)
  | KEYDOWN k => handle_key s k
  | MOUSEBUTTONDOWN button pos =>
      if bool_decide (button = 1) then
        match cell_at a pos with
        | None => (s, Some ZeroDivisionError)
        | Some (x, y) =>
            if bool_decide (x < a_width a) then
              toggle
                (mkLoop (the_game s) (running s) true
                        (bool_decide ((x, y) ∉ live_cells (the_game s)))
                        (files s) (random_calls s) (stdout s))
                x y
            else (s, None)
        end
      else (s, None)
  | MOUSEBUTTONUP button =>
      if bool_decide (button = 1) then
        (mkLoop (the_game s) (running s) false (drawing_live s) (files s)
                (random_calls s) (stdout s), None)
      else (s, None)
  | MOUSEMOTION pos =>
      if dragging s then
        match cell_at a pos with
        | None => (s, Some ZeroDivisionError)
        | Some (x, y) =>
            if bool_decide (x < a_width a) then
              if negb (Bool.eqb (bool_decide ((x, y) ∈ live_cells (the_game s)))
                                (drawing_live s))
              then toggle s x y
              else (s, None)
            else (s, None)
        end
      else (s, None)
  | OTHER => (s, None)
  end.

(** The [for] loop over the events of one frame; an exception ends it. *)
Fixpoint handle_events (a : args) (s : loop_state) (evs : list event)
    : loop_state * option uncaught :=
  match evs with
  | [] => (s, None)
  | ev :: evs' =>
      match handle_event a s ev with
      | (s', None) => handle_events a s' evs'
      | stopped => stopped
      end
  end.

(** One pass of the body of [while running]: the events, then the
    update when the game is not paused.  The drawing that follows reads
    the state and changes none of it. *)
Definition frame (a : args) (s : loop_state) (evs : list event)
    : loop_state * option uncaught :=
  match handle_events a s evs with
  | (s', None) =>
      if paused (the_game s') then (s', None)
      else (set_game s' (next_generation (the_game s')), None)
  | stopped => stopped
  end.

(** The loop [while running], given the events of each frame to come. *)
Fixpoint run (a : args) (s : loop_state) (frames : list (list event))
    : loop_state * option uncaught :=
  match frames with
  | [] => (s, None)
  | evs :: frames' =>
      if running s then
        match frame a s evs with
        | (s', None) => run a s' frames'
        | stopped => stopped
        end
      else (s, None)
  end.

End loop.

(** The state in which [main] enters the loop, when the construction of
    the game returns. *)
Definition enter (a : args) (fs : gmap string string) (calls : nat)
    : outcome loop_state :=
  g ← __init__ (a_width a) (a_height a);
  mret (mkLoop g true false true fs calls []).

(** The invariant of the loop: the bounds of the game are the arguments
    and every live cell lies inside them. *)
Definition game_in_grid (a : args) (s : loop_state) : Prop :=
  width (the_game s) = a_width a
  ∧ height (the_game s) = a_height a
  ∧ set_Forall (λ c : cell, 0 ≤ c.1 < a_width a ∧ 0 ≤ c.2 < a_height a)
               (live_cells (the_game s)).

(** The position of a mouse event lies in the window, left of its right
    edge or not: the window is [height * cell_size] pixels high. *)
Definition in_window (a : args) (ev : event) : Prop :=
  match ev with
  | MOUSEBUTTONDOWN _ pos | MOUSEMOTION pos =>
      0 ≤ pos.1 ∧ 0 ≤ pos.2 < a_height a * a_cell_size a
  | _ => True
  end.

End Main.

(** ** Concrete engines and files used as test inputs *)

Module Examples.
Import Py Life.

(** The blinker of [test_blinker.py], lying and standing. *)
Definition horizontal : gset cell := {[ (1, 2); (2, 2); (3, 2) ]}.
Definition vertical : gset cell := {[ (2, 1); (2, 2); (2, 3) ]}.

(** [GameOfLife(5, 5)] with [live_cells] set to the lying blinker. *)
Definition blinker_5x5 : GameOfLife := mkGame 5 5 horizontal 0 true.

(** [GameOfLife(5, 5)] and [GameOfLife(10, 10)] as constructed. *)
Definition empty_5x5 : GameOfLife := mkGame 5 5 ∅ 0 true.
Definition empty_10x10 : GameOfLife := mkGame 10 10 ∅ 0 true.

(** A live-cell set with the cell (-1,1) outside the grid, and the 5×5
    engine holding it. *)
Definition off_grid : gset cell := {[ (-1, 1); (0, 0); (0, 1); (0, 2) ]}.
Definition off_grid_5x5 : GameOfLife := mkGame 5 5 off_grid 0 true.

(** The file name [main] saves to and loads from. *)
Definition patterns_txt : string := "patterns.txt".



(** A pattern file with a cell outside a 10×10 grid, a blank line and
    a line with spaces around its numbers. *)
Definition mixed_text : string :=
  foldl String.append EmptyString
    [ "100,100" +:+ String LF EmptyString;
      String LF EmptyString;
      " 3 , 4 " +:+ String LF EmptyString ].

(** A generator whose every draw is 0.5, as IEEE binary64 floats. *)
Definition draws_half : nat → PrimFloat.float := λ _, 0.5%float.

(** The default density 0.2 of [initialize_random]: the binary64 float
    nearest to it. *)
Definition density_default : PrimFloat.float := 0x1.999999999999ap-3%float.

(** The arguments [--width 5 --height 5] with the default frame rate
    and cell size, and the same with a cell size of 0. *)
Definition args_5x5 : Main.args := Main.mkArgs 5 5 10 20.
Definition args_no_size : Main.args := Main.mkArgs 5 5 10 0.

(** The loop state around an engine: running, not dragging, no file,
    no draw made, nothing printed. *)
Definition looping (g : GameOfLife) : Main.loop_state :=
  Main.mkLoop g true false true ∅ 0 [].

(** The same in the middle of a drag that paints cells live. *)
Definition painting (g : GameOfLife) : Main.loop_state :=
  Main.mkLoop g true true true ∅ 0 [].

(** Three frames: a click on the cell (2,2) and a drag to (3,2); the
    space key; a click on the panel right of the grid and the end of the
    session. *)
Definition session : list (list Main.event) :=
  [ [Main.MOUSEBUTTONDOWN 1 (45, 50); Main.MOUSEMOTION (65, 50);
     Main.MOUSEBUTTONUP 1];
    [Main.KEYDOWN Main.K_SPACE];
    [Main.MOUSEBUTTONDOWN 1 (150, 50); Main.QUIT] ].

End Examples.

(** * Properties *)

Section neighbor_count.
Import Py Life LifeSpec.
Variable g : GameOfLife.

Lemma in_bounds_spec nx ny :
  in_bounds g nx ny = true ↔ 0 ≤ nx < width g ∧ 0 ≤ ny < height g.
Proof.
  unfold in_bounds. rewrite !andb_true_iff, !bool_decide_eq_true. lia.
Qed.

Lemma live_at_range nx ny : 0 ≤ live_at g nx ny ≤ 1.
Proof. unfold live_at. case (_ && _); lia. Qed.

Lemma live_at_decide nx ny :
  live_at g nx ny = if decide (live_in_grid g (nx, ny)) then 1 else 0.
Proof.
  unfold live_at, live_in_grid, in_grid. simpl.
  destruct (in_bounds g nx ny) eqn:Hb; simpl.
  - apply in_bounds_spec in Hb.
    case_bool_decide; case_decide; try reflexivity; tauto.
  - case_decide as Hd; [|reflexivity].
    destruct Hd as [Hd _]. apply in_bounds_spec in Hd. congruence.
Qed.

Lemma count_step_centre x y count : count_step g x y 0 count 0 = count.
Proof. reflexivity. Qed.

Lemma count_step_off x y dx dy count :
  dx ≠ 0 ∨ dy ≠ 0 →
  count_step g x y dy count dx = count + live_at g (x + dx) (y + dy).
Proof.
  intros Hne. unfold count_step, live_at.
  replace (bool_decide (dx = 0) && bool_decide (dy = 0)) with false.
  - simpl. destruct (in_bounds g _ _); simpl; [|lia].
    case_bool_decide; lia.
  - symmetry. apply andb_false_iff. rewrite !bool_decide_eq_false. tauto.
Qed.

(** The loop nest unrolled: the eight contributions in visiting order. *)
Lemma count_live_neighbors_unfold x y :
  count_live_neighbors g x y =
    live_at g (x - 1) (y - 1) + live_at g x (y - 1) + live_at g (x + 1) (y - 1)
    + live_at g (x - 1) y + live_at g (x + 1) y
    + live_at g (x - 1) (y + 1) + live_at g x (y + 1) + live_at g (x + 1) (y + 1).
Proof.
  unfold count_live_neighbors, offsets. simpl foldl.
  rewrite count_step_centre.
  rewrite !count_step_off by lia.
  rewrite !Z.add_0_r. reflexivity.
Qed.

Lemma length_filter_cons_Z (P : cell → Prop) `{!∀ p, Decision (P p)} p l :
  Z.of_nat (length (filter P (p :: l))) =
    (if decide (P p) then 1 else 0) + Z.of_nat (length (filter P l)).
Proof. rewrite filter_cons. case_decide; simpl length; lia. Qed.

Lemma moore_count_unfold x y :
  moore_count g x y =
    live_at g (x - 1) (y - 1) + live_at g x (y - 1) + live_at g (x + 1) (y - 1)
    + live_at g (x - 1) y + live_at g (x + 1) y
    + live_at g (x - 1) (y + 1) + live_at g x (y + 1) + live_at g (x + 1) (y + 1).
Proof.
  unfold moore_count, moore_neighborhood.
  rewrite !length_filter_cons_Z, <- !live_at_decide.
  rewrite filter_nil. simpl length. lia.
Qed.

Lemma centre_not_in_moore x y : (x, y) ∉ moore_neighborhood x y.
Proof.
  unfold moore_neighborhood. rewrite !not_elem_of_cons.
  repeat split; try (intros Heq; inversion Heq; lia).
Qed.

(** C8: [count_live_neighbors(x, y)] is the number of live cells among the
    eight Moore-neighbourhood positions of [(x, y)], where a position
    outside [0,W)×[0,H) is dead and the centre [(x, y)] is not among the
    positions examined; the result lies in [0, 8].  This holds for every
    cell [(x, y)], in particular for every in-bounds one, and for every
    live-cell set. *)
Theorem count_live_neighbors_moore (x y : Z) :
  count_live_neighbors g x y = moore_count g x y
  ∧ ((x, y) ∉ moore_neighborhood x y)
  ∧ length (moore_neighborhood x y) = 8%nat
  ∧ 0 ≤ count_live_neighbors g x y ≤ 8.
Proof.
  split; [|split; [|split]].
  - rewrite count_live_neighbors_unfold, moore_count_unfold. reflexivity.
  - apply centre_not_in_moore.
  - reflexivity.
  - rewrite count_live_neighbors_unfold.
    pose proof (live_at_range (x - 1) (y - 1)).
    pose proof (live_at_range x (y - 1)).
    pose proof (live_at_range (x + 1) (y - 1)).
    pose proof (live_at_range (x - 1) y).
    pose proof (live_at_range (x + 1) y).
    pose proof (live_at_range (x - 1) (y + 1)).
    pose proof (live_at_range x (y + 1)).
    pose proof (live_at_range (x + 1) (y + 1)).
    lia.
Qed.

End neighbor_count.

Section transition.
Import Py Life LifeSpec.
Variable g : GameOfLife.

Lemma elem_of_candidate_step x y dy dx cs (c : cell) :
  c ∈ candidate_step g x y dy cs dx ↔
  c ∈ cs ∨ (c = (x + dx, y + dy) ∧ in_bounds g (x + dx) (y + dy) = true).
Proof.
  unfold candidate_step. simpl.
  destruct (in_bounds g (x + dx) (y + dy)).
  - rewrite elem_of_union, elem_of_singleton. tauto.
  - split; [tauto|]. intros [?|[_ ?]]; [assumption|discriminate].
Qed.

Lemma elem_of_add_candidates cs (s c : cell) :
  c ∈ add_candidates g cs s ↔
  c ∈ cs ∨ (in_bounds g c.1 c.2 = true ∧ adjacent_or_equal s c).
Proof.
  destruct s as [x y], c as [cx cy].
  unfold add_candidates, offsets, adjacent_or_equal. simpl foldl.
  rewrite !elem_of_candidate_step. simpl.
  split.
  - intros H. repeat (destruct H as [H|H]); [tauto|..];
      destruct H as [Heq Hb]; inversion Heq; subst; right;
      (split; [exact Hb|lia]).
  - intros [H|[Hb [Hx Hy]]]; [tauto|].
    assert (Hcx : cx = x + -1 ∨ cx = x + 0 ∨ cx = x + 1) by lia.
    assert (Hcy : cy = y + -1 ∨ cy = y + 0 ∨ cy = y + 1) by lia.
    destruct Hcx as [-> | [-> | ->]], Hcy as [-> | [-> | ->]]; tauto.
Qed.

Lemma elem_of_foldl_add_candidates (l : list cell) cs (c : cell) :
  c ∈ foldl (add_candidates g) cs l ↔
  c ∈ cs ∨ (in_bounds g c.1 c.2 = true ∧ ∃ s, s ∈ l ∧ adjacent_or_equal s c).
Proof.
  revert cs. induction l as [|s l IH]; intros cs; simpl.
  - split; [tauto|]. intros [?|[_ [s [Hs _]]]]; [assumption|].
    by apply elem_of_nil in Hs.
  - rewrite IH, elem_of_add_candidates. split.
    + intros [[?|[? ?]]|[? [s' [? ?]]]]; [tauto|right|right].
      * split; [assumption|]. exists s. split; [left|assumption].
      * split; [assumption|]. exists s'. split; [by right|assumption].
    + intros [?|[Hb [s' [Hs' Hadj]]]]; [tauto|].
      apply elem_of_cons in Hs' as [-> | Hs']; [tauto|].
      right. split; [assumption|]. by exists s'.
Qed.

(** A cell is a candidate exactly when it is inside the grid and lies in
    the 3×3 block of some live cell. *)
Lemma elem_of_candidates (c : cell) :
  c ∈ candidates g ↔
  in_bounds g c.1 c.2 = true
  ∧ ∃ s, s ∈ live_cells g ∧ adjacent_or_equal s c.
Proof.
  unfold candidates. rewrite elem_of_foldl_add_candidates.
  setoid_rewrite elem_of_elements. split.
  - intros [H|H]; [by apply not_elem_of_empty in H|exact H].
  - intros H. right. exact H.
Qed.

Lemma elem_of_rule_step acc (c d : cell) :
  d ∈ rule_step g acc c ↔ d ∈ acc ∨ (d = c ∧ rule_holds g c).
Proof.
  destruct c as [x y]. unfold rule_step, rule_holds, conway. simpl.
  repeat case_bool_decide; simpl;
    rewrite ?elem_of_union, ?elem_of_singleton; intuition congruence.
Qed.

Lemma elem_of_foldl_rule_step (l : list cell) acc (d : cell) :
  d ∈ foldl (rule_step g) acc l ↔ d ∈ acc ∨ (d ∈ l ∧ rule_holds g d).
Proof.
  revert acc. induction l as [|c l IH]; intros acc; simpl.
  - split; [tauto|]. intros [?|[Hd _]]; [assumption|].
    by apply elem_of_nil in Hd.
  - rewrite IH, elem_of_rule_step, elem_of_cons. split.
    + intros [[? | [-> ?]] | [? ?]]; tauto.
    + intros [? | [[-> | ?] ?]]; tauto.
Qed.

Lemma elem_of_next_generation (c : cell) :
  c ∈ live_cells (next_generation g) ↔ c ∈ candidates g ∧ rule_holds g c.
Proof.
  unfold next_generation. simpl.
  rewrite elem_of_foldl_rule_step, elem_of_elements. split.
  - intros [H|H]; [by apply not_elem_of_empty in H|exact H].
  - intros H. right. exact H.
Qed.

End transition.

Section grid.
Import Py Life LifeSpec.

Lemma in_bounds_in_grid (g : GameOfLife) (c : cell) :
  in_bounds g c.1 c.2 = true ↔ in_grid (width g) (height g) c.
Proof. apply in_bounds_spec. Qed.

Lemma elem_of_grid_cells W H (c : cell) :
  c ∈ grid_cells W H ↔ in_grid W H c.
Proof.
  destruct c as [x y]. unfold grid_cells, in_grid. simpl.
  rewrite list_elem_of_bind. split.
  - intros [y' [Hxy Hy']]. apply list_elem_of_bind in Hxy as [x' [Hc Hx']].
    apply list_elem_of_singleton in Hc. inversion Hc; subst.
    apply elem_of_seqZ in Hx', Hy'. lia.
  - intros [Hx Hy]. exists y. split; [|apply elem_of_seqZ; lia].
    apply list_elem_of_bind. exists x.
    split; [apply list_elem_of_singleton; reflexivity|apply elem_of_seqZ; lia].
Qed.

(** When every live cell is inside the grid, the bounds test in
    [count_live_neighbors] never rejects a live position. *)
Lemma count_live_neighbors_in_grid (g : GameOfLife) x y :
  set_Forall (in_grid (width g) (height g)) (live_cells g) →
  count_live_neighbors g x y = live_neighbors_in (live_cells g) (x, y).
Proof.
  intros Hin.
  rewrite count_live_neighbors_unfold, <- moore_count_unfold.
  unfold moore_count, live_neighbors_in. simpl fst. simpl snd.
  do 2 f_equal. apply list_filter_iff. intros p. unfold live_in_grid.
  split; [tauto|]. intros Hp. split; [apply Hin|]; exact Hp.
Qed.

Lemma elem_of_moore_adjacent x y (p : cell) :
  p ∈ moore_neighborhood x y → adjacent_or_equal p (x, y).
Proof.
  unfold moore_neighborhood, adjacent_or_equal.
  rewrite !elem_of_cons, elem_of_nil.
  intros H. repeat (destruct H as [H|H]); try contradiction;
    subst p; simpl; lia.
Qed.

(** A cell with a positive count has a live cell next to it. *)
Lemma live_neighbors_in_pos (S : gset cell) (c : cell) :
  0 < live_neighbors_in S c → ∃ s, s ∈ S ∧ adjacent_or_equal s c.
Proof.
  unfold live_neighbors_in. intros Hpos.
  destruct (filter (λ p, p ∈ S) (moore_neighborhood c.1 c.2)) as [|p l] eqn:Hf.
  - simpl in Hpos. lia.
  - assert (Hp : p ∈ filter (λ p, p ∈ S) (moore_neighborhood c.1 c.2))
      by (rewrite Hf; left).
    apply list_elem_of_filter in Hp as [HpS Hpm].
    exists p. split; [exact HpS|].
    apply elem_of_moore_adjacent in Hpm. destruct c. exact Hpm.
Qed.

Lemma adjacent_or_equal_refl (c : cell) : adjacent_or_equal c c.
Proof. unfold adjacent_or_equal. lia. Qed.

Lemma elem_of_moore_neighborhood (s c : cell) :
  c ∈ moore_neighborhood s.1 s.2 ↔ adjacent_or_equal s c ∧ c ≠ s.
Proof.
  destruct s as [sx sy], c as [cx cy].
  unfold moore_neighborhood, adjacent_or_equal. simpl.
  rewrite !elem_of_cons, elem_of_nil. split.
  - intros H. repeat (destruct H as [H|H]); try contradiction;
      inversion H; subst; (split; [lia|intros Heq; inversion Heq; lia]).
  - intros [[Hx Hy] Hne].
    assert (Hcx : cx = sx - 1 ∨ cx = sx ∨ cx = sx + 1) by lia.
    assert (Hcy : cy = sy - 1 ∨ cy = sy ∨ cy = sy + 1) by lia.
    destruct Hcx as [-> | [-> | ->]], Hcy as [-> | [-> | ->]];
      try contradiction; auto 10.
Qed.

(** With the live cells inside the grid, the candidates are the live
    cells together with their neighbours inside the grid. *)
Lemma candidates_live_or_neighbor (g : GameOfLife) (c : cell) :
  set_Forall (in_grid (width g) (height g)) (live_cells g) →
  c ∈ candidates g ↔
    c ∈ live_cells g
    ∨ (in_grid (width g) (height g) c
       ∧ ∃ s, s ∈ live_cells g ∧ c ∈ moore_neighborhood s.1 s.2).
Proof.
  intros Hin. rewrite elem_of_candidates, in_bounds_in_grid. split.
  - intros [Hg [s [Hs Hadj]]].
    destruct (decide (c = s)) as [->|Hne]; [left; exact Hs|].
    right. split; [exact Hg|]. exists s. split; [exact Hs|].
    apply elem_of_moore_neighborhood. split; assumption.
  - intros [Hc|[Hg [s [Hs Hm]]]].
    + split; [apply Hin, Hc|]. exists c. split; [exact Hc|].
      apply adjacent_or_equal_refl.
    + split; [exact Hg|]. exists s. split; [exact Hs|].
      apply elem_of_moore_neighborhood in Hm. tauto.
Qed.

End grid.

Section evaluated_cells.
Import Py Life LifeSpec.

(** A positive count comes from a live cell of the grid next to the
    cell. *)
Lemma count_live_neighbors_pos (g : GameOfLife) (c : cell) :
  0 < count_live_neighbors g c.1 c.2 →
  ∃ s, s ∈ live_cells g ∧ adjacent_or_equal s c.
Proof.
  rewrite count_live_neighbors_unfold, <- moore_count_unfold.
  unfold moore_count. intros Hpos.
  destruct (filter (live_in_grid g) (moore_neighborhood c.1 c.2))
    as [|p l] eqn:Hf; [simpl in Hpos; lia|].
  assert (Hp : p ∈ filter (live_in_grid g) (moore_neighborhood c.1 c.2))
    by (rewrite Hf; left).
  apply list_elem_of_filter in Hp as [[_ Hlive] Hm].
  exists p. split; [exact Hlive|].
  apply elem_of_moore_adjacent in Hm. destruct c. exact Hm.
Qed.

(** Every cell of the grid that the rule selects is a candidate, so the
    second loop of [next_generation] misses none of them. *)
Lemma selected_in_grid_is_candidate (g : GameOfLife) (c : cell) :
  in_grid (width g) (height g) c → rule_holds g c → c ∈ candidates g.
Proof.
  intros Hg Hrule. apply elem_of_candidates.
  split; [apply in_bounds_in_grid, Hg|].
  destruct Hrule as [[Hlive _]|[_ Hn]].
  - exists c. split; [exact Hlive|apply adjacent_or_equal_refl].
  - apply count_live_neighbors_pos. lia.
Qed.

End evaluated_cells.

(** C1, as the code has it: [next_generation] computes the new
    live-cell set from the state before the transition only.  A cell is
    in the new set exactly when it lies in [0,W)×[0,H) and either it is
    live in the old set with 2 or 3 live neighbours, or it is not in the
    old set and has exactly 3, the count being [count_live_neighbors] on
    the old state.  The candidates, which are the cells the second loop
    evaluates, are the cells of the grid in the 3×3 block of a live
    cell; a live cell outside the grid is not one of them and is in no
    new set.  The new set replaces the old one, the generation counter
    grows by exactly 1 and the bounds stay as they were. *)
Theorem next_generation_rule (g : Life.GameOfLife) (c : cell) :
  (c ∈ Life.live_cells (Life.next_generation g) ↔
     LifeSpec.in_grid (Life.width g) (Life.height g) c
     ∧ ((c ∈ Life.live_cells g
         ∧ (Life.count_live_neighbors g c.1 c.2 = 2
            ∨ Life.count_live_neighbors g c.1 c.2 = 3))
        ∨ ((c ∉ Life.live_cells g)
           ∧ Life.count_live_neighbors g c.1 c.2 = 3)))
  ∧ (c ∈ Life.candidates g ↔
       LifeSpec.in_grid (Life.width g) (Life.height g) c
       ∧ ∃ s, s ∈ Life.live_cells g ∧ LifeSpec.adjacent_or_equal s c)
  ∧ Life.generation (Life.next_generation g) = Life.generation g + 1
  ∧ Life.width (Life.next_generation g) = Life.width g
  ∧ Life.height (Life.next_generation g) = Life.height g.
Proof.
  split; [|split; [|repeat split]].
  - rewrite elem_of_next_generation. split.
    + intros [Hc Hrule]. split; [|exact Hrule].
      apply elem_of_candidates in Hc as [Hb _].
      apply in_bounds_in_grid, Hb.
    + intros [Hg Hrule]. split; [|exact Hrule].
      apply selected_in_grid_is_candidate; assumption.
  - rewrite elem_of_candidates, in_bounds_in_grid. reflexivity.
Qed.

(** Four calls of [toggle_cell] on the empty 5×5 engine reach a state
    with the live cell (-1,1) outside the grid. *)
Lemma off_grid_reachable :
  (g1 ← Life.toggle_cell Examples.empty_5x5 (-1) 1;
   g2 ← Life.toggle_cell g1 0 0;
   g3 ← Life.toggle_cell g2 0 1;
   Life.toggle_cell g3 0 2)
  = Py.Returned Examples.off_grid_5x5.
Proof. vm_compute. reflexivity. Qed.

(** From that state one step leaves cells of the grid only.  The cell
    (-1,1) has three live neighbours, but it is no candidate. *)
Lemma off_grid_step :
  Life.count_live_neighbors Examples.off_grid_5x5 (-1) 1 = 3
  ∧ Life.live_cells (Life.next_generation Examples.off_grid_5x5)
    = {[ (0, 1); (1, 1) ]}.
Proof. split; vm_compute; reflexivity. Qed.

(** C1 fails as stated: in the 5×5 engine reached by those four toggles
    the cell (-1,1) is live and its live-neighbour count is 3, yet it is
    not in the live-cell set after [next_generation]. *)
Lemma next_generation_drops_live_cell_off_grid :
  (-1, 1) ∈ Life.live_cells Examples.off_grid_5x5
  ∧ Life.count_live_neighbors Examples.off_grid_5x5 (-1) 1 = 3
  ∧ (-1, 1) ∉ Life.live_cells (Life.next_generation Examples.off_grid_5x5).
Proof.
  destruct off_grid_step as [Hcount Hnext].
  split; [|split; [exact Hcount|]].
  - unfold Examples.off_grid_5x5, Examples.off_grid. simpl.
    rewrite !elem_of_union, !elem_of_singleton. auto.
  - rewrite Hnext, elem_of_union, !elem_of_singleton.
    intros [Heq|Heq]; inversion Heq.
Qed.

(** C10: whatever the live-cell set before the step, also one with
    coordinates outside the grid, every cell of the set that
    [next_generation] produces lies in [0,W)×[0,H). *)
Theorem next_generation_in_bounds (g : Life.GameOfLife) :
  set_Forall (LifeSpec.in_grid (Life.width g) (Life.height g))
             (Life.live_cells (Life.next_generation g)).
Proof.
  intros c Hc. apply elem_of_next_generation in Hc as [Hc _].
  apply elem_of_candidates in Hc as [Hb _].
  apply (in_bounds_in_grid g c) in Hb. exact Hb.
Qed.

(** C2: when every live cell lies in [0,W)×[0,H), the candidate set is
    the union of the live cells and their Moore neighbours inside the
    grid, and the set that [next_generation] computes from the candidates
    alone is the set that Conway's rule selects among all the cells of
    the full W×H grid. *)
Theorem candidates_refine_full_grid (g : Life.GameOfLife) :
  set_Forall (LifeSpec.in_grid (Life.width g) (Life.height g))
             (Life.live_cells g) →
  (∀ c : cell, c ∈ Life.candidates g ↔
     c ∈ Life.live_cells g
     ∨ (LifeSpec.in_grid (Life.width g) (Life.height g) c
        ∧ ∃ s, s ∈ Life.live_cells g
               ∧ c ∈ LifeSpec.moore_neighborhood s.1 s.2))
  ∧ Life.live_cells (Life.next_generation g) =
      LifeSpec.conway_full_grid (Life.width g) (Life.height g)
                                (Life.live_cells g).
Proof.
  intros Hin. split.
  { intros c. apply candidates_live_or_neighbor, Hin. }
  apply set_eq. intros c.
  unfold LifeSpec.conway_full_grid.
  rewrite elem_of_next_generation, elem_of_list_to_set, list_elem_of_filter.
  rewrite elem_of_grid_cells, elem_of_candidates, in_bounds_in_grid.
  unfold LifeSpec.rule_holds.
  destruct c as [x y]. simpl fst. simpl snd.
  rewrite (count_live_neighbors_in_grid g x y Hin).
  split.
  - intros [[Hg _] Hrule]. split; assumption.
  - intros [Hrule Hg]. split; [split; [exact Hg|]|exact Hrule].
    destruct Hrule as [[Halive _]|[_ Hn]].
    + exists (x, y). split; [exact Halive|apply adjacent_or_equal_refl].
    + apply live_neighbors_in_pos. lia.
Qed.

Section blinker.
Import Py Life LifeSpec Examples.

(** The step reads the grid bounds only to reject positions outside the
    grid, so two engines with the same live cells step alike as long as
    the 3×3 block of every live cell fits in both grids. *)
Lemma next_generation_grid_irrelevant (g1 g2 : GameOfLife) :
  live_cells g1 = live_cells g2 →
  (∀ s c, s ∈ live_cells g1 → adjacent_or_equal s c →
     in_grid (width g1) (height g1) c ∧ in_grid (width g2) (height g2) c) →
  live_cells (next_generation g1) = live_cells (next_generation g2).
Proof.
  intros Hlive Hfit.
  assert (Hin1 : set_Forall (in_grid (width g1) (height g1)) (live_cells g1)).
  { intros s Hs. apply (Hfit s s Hs), adjacent_or_equal_refl. }
  assert (Hin2 : set_Forall (in_grid (width g2) (height g2)) (live_cells g2)).
  { rewrite <- Hlive. intros s Hs. apply (Hfit s s Hs), adjacent_or_equal_refl. }
  apply set_eq. intros [x y].
  rewrite !elem_of_next_generation, !elem_of_candidates, !in_bounds_in_grid.
  unfold rule_holds. simpl fst. simpl snd.
  rewrite (count_live_neighbors_in_grid g1 x y Hin1).
  rewrite (count_live_neighbors_in_grid g2 x y Hin2).
  rewrite <- Hlive. split.
  - intros [[_ [s [Hs Hadj]]] Hrule]. split; [|exact Hrule].
    split; [apply (Hfit s (x, y) Hs Hadj)|by exists s].
  - intros [[_ [s [Hs Hadj]]] Hrule]. split; [|exact Hrule].
    split; [apply (Hfit s (x, y) Hs Hadj)|by exists s].
Qed.

Lemma blinker_fits (S : gset cell) (W H : Z) (s c : cell) :
  5 ≤ W → 5 ≤ H →
  set_Forall (λ s, 1 ≤ s.1 ≤ 3 ∧ 1 ≤ s.2 ≤ 3) S →
  s ∈ S → adjacent_or_equal s c → in_grid W H c ∧ in_grid 5 5 c.
Proof.
  intros HW HH HS Hs [Hx Hy]. apply HS in Hs. unfold in_grid. lia.
Qed.

Lemma horizontal_inner : set_Forall (λ s, 1 ≤ s.1 ≤ 3 ∧ 1 ≤ s.2 ≤ 3) horizontal.
Proof.
  intros s. unfold horizontal. rewrite !elem_of_union, !elem_of_singleton.
  intros [[-> | ->] | ->]; simpl; lia.
Qed.

Lemma vertical_inner : set_Forall (λ s, 1 ≤ s.1 ≤ 3 ∧ 1 ≤ s.2 ≤ 3) vertical.
Proof.
  intros s. unfold vertical. rewrite !elem_of_union, !elem_of_singleton.
  intros [[-> | ->] | ->]; simpl; lia.
Qed.

(** One step on the 5×5 grid, by evaluation. *)
Lemma horizontal_step_5x5 :
  live_cells (next_generation (mkGame 5 5 horizontal 0 true)) = vertical.
Proof. vm_compute. reflexivity. Qed.

Lemma vertical_step_5x5 :
  live_cells (next_generation (mkGame 5 5 vertical 0 true)) = horizontal.
Proof. vm_compute. reflexivity. Qed.

Lemma horizontal_step (g : GameOfLife) :
  5 ≤ width g → 5 ≤ height g → live_cells g = horizontal →
  live_cells (next_generation g) = vertical.
Proof.
  intros HW HH Hlive. rewrite <- horizontal_step_5x5.
  apply next_generation_grid_irrelevant; [exact Hlive|].
  intros s c Hs. rewrite Hlive in Hs. simpl.
  apply (blinker_fits horizontal); auto using horizontal_inner.
Qed.

Lemma vertical_step (g : GameOfLife) :
  5 ≤ width g → 5 ≤ height g → live_cells g = vertical →
  live_cells (next_generation g) = horizontal.
Proof.
  intros HW HH Hlive. rewrite <- vertical_step_5x5.
  apply next_generation_grid_irrelevant; [exact Hlive|].
  intros s c Hs. rewrite Hlive in Hs. simpl.
  apply (blinker_fits vertical); auto using vertical_inner.
Qed.

End blinker.

(** C9: on a grid of at least 5×5 whose live cells are (1,2), (2,2) and
    (3,2), one [next_generation] leaves exactly (2,1), (2,2) and (2,3), a
    second one leaves exactly (1,2), (2,2) and (3,2) again, and each call
    adds 1 to the generation counter. *)
Theorem blinker_oscillates (g : Life.GameOfLife) :
  5 ≤ Life.width g → 5 ≤ Life.height g →
  Life.live_cells g = {[ (1, 2); (2, 2); (3, 2) ]} →
  Life.live_cells (Life.next_generation g) = {[ (2, 1); (2, 2); (2, 3) ]}
  ∧ Life.live_cells (Life.next_generation (Life.next_generation g))
    = {[ (1, 2); (2, 2); (3, 2) ]}
  ∧ Life.generation (Life.next_generation g) = Life.generation g + 1
  ∧ Life.generation (Life.next_generation (Life.next_generation g))
    = Life.generation (Life.next_generation g) + 1.
Proof.
  intros HW HH Hlive.
  pose proof (horizontal_step g HW HH Hlive) as Hv.
  split; [exact Hv|]. split; [|split; reflexivity].
  apply vertical_step; [exact HW|exact HH|exact Hv].
Qed.

(** The blinker of [test_blinker.py] on the 5×5 grid. *)
Lemma blinker_oscillates_witness :
  Life.live_cells
    (Life.next_generation (Life.mkGame 5 5 {[ (1, 2); (2, 2); (3, 2) ]} 0 true))
  = {[ (2, 1); (2, 2); (2, 3) ]}.
Proof.
  apply (blinker_oscillates
           (Life.mkGame 5 5 {[ (1, 2); (2, 2); (3, 2) ]} 0 true));
    simpl; [lia|lia|reflexivity].
Defined.

Section editing.
Import Py Life LifeSpec.

Lemma toggle_cell_live (g : GameOfLife) x y :
  (x, y) ∈ live_cells g →
  toggle_cell g x y = Returned (set_live_cells g (live_cells g ∖ {[ (x, y) ]})).
Proof.
  intros Hin. unfold toggle_cell, set_remove.
  repeat case_bool_decide; try contradiction. reflexivity.
Qed.

Lemma toggle_cell_dead (g : GameOfLife) x y :
  (x, y) ∉ live_cells g →
  toggle_cell g x y = Returned (set_live_cells g ({[ (x, y) ]} ∪ live_cells g)).
Proof.
  intros Hout. unfold toggle_cell.
  rewrite (bool_decide_eq_false_2 _ Hout). reflexivity.
Qed.

End editing.

(** C5, as the code has it: [toggle_cell] tests no bounds.  For every
    [(x, y)], inside the grid or not, it returns without raising, flips
    the membership of [(x, y)] in the live-cell set, leaves every other
    cell as it was and does not change the generation counter or the
    bounds. *)
Theorem toggle_cell_flips (g : Life.GameOfLife) (x y : Z) :
  ∃ g', Life.toggle_cell g x y = Py.Returned g'
    ∧ ((x, y) ∈ Life.live_cells g' ↔ (x, y) ∉ Life.live_cells g)
    ∧ (∀ c, c ≠ (x, y) → (c ∈ Life.live_cells g' ↔ c ∈ Life.live_cells g))
    ∧ Life.generation g' = Life.generation g
    ∧ Life.width g' = Life.width g
    ∧ Life.height g' = Life.height g.
Proof.
  destruct (decide ((x, y) ∈ Life.live_cells g)) as [Hin|Hout].
  - eexists. split; [apply toggle_cell_live, Hin|]. simpl.
    split; [|split; [intros c Hc|repeat split]];
      rewrite elem_of_difference, elem_of_singleton; intuition congruence.
  - eexists. split; [apply toggle_cell_dead, Hout|]. simpl.
    split; [|split; [intros c Hc|repeat split]];
      rewrite elem_of_union, elem_of_singleton; intuition congruence.
Qed.

(** C5 fails as stated: on an empty 5×5 grid, [toggle_cell(-1, 7)] is
    outside the grid, yet the call returns and the live-cell set is no
    longer the one before the call. *)
Lemma toggle_cell_out_of_bounds_changes_state :
  Life.in_bounds (Life.mkGame 5 5 ∅ 0 true) (-1) 7 = false
  ∧ Life.toggle_cell (Life.mkGame 5 5 ∅ 0 true) (-1) 7
    = Py.Returned (Life.mkGame 5 5 {[ (-1, 7) ]} 0 true)
  ∧ Life.live_cells (Life.mkGame 5 5 {[ (-1, 7) ]} 0 true)
    ≠ Life.live_cells (Life.mkGame 5 5 ∅ 0 true).
Proof.
  split; [reflexivity|]. split.
  - rewrite toggle_cell_dead by apply not_elem_of_empty.
    unfold Life.set_live_cells. simpl. rewrite (right_id_L ∅ (∪)). reflexivity.
  - simpl. intros Heq.
    apply (not_elem_of_empty (C:=gset cell) (-1, 7)).
    rewrite <- Heq. apply elem_of_singleton. reflexivity.
Qed.

(** C6, as the code has it: [__init__] checks nothing.  For every width
    and height, positive or not, construction returns an engine with
    those bounds, an empty live-cell set, generation 0 and the paused
    flag set. *)
Theorem init_always_returns (w h : Z) :
  ∃ g, Life.__init__ w h = Py.Returned g
    ∧ Life.width g = w ∧ Life.height g = h
    ∧ Life.live_cells g = ∅
    ∧ Life.generation g = 0
    ∧ Life.paused g = true.
Proof. eexists. split; [reflexivity|]. repeat split. Qed.

(** C6 fails as stated: with width 0 and height -3 construction does not
    fail; it returns an engine. *)
Lemma init_nonpositive_returns :
  Life.__init__ 0 (-3) = Py.Returned (Life.mkGame 0 (-3) ∅ 0 true)
  ∧ ∀ e, Life.__init__ 0 (-3) ≠ Py.Raised e.
Proof. split; [reflexivity|]. intros e. discriminate. Qed.

Section randomize.
Import Py Life LifeSpec.
Context {float : Type} (flt : float → float → bool) (draws : nat → float).
Variable density : float.

Lemma seqZ_to_nat (W : Z) : seqZ 0 W = seqZ 0 (Z.of_nat (Z.to_nat W)).
Proof. unfold seqZ. rewrite Nat2Z.id. reflexivity. Qed.

(** The inner loop after [n] columns of row [y]. *)
Lemma random_columns (y : Z) (live : gset cell) (calls n : nat) :
  let st := foldl (random_step flt draws density y) (live, calls)
                  (seqZ 0 (Z.of_nat n)) in
  st.2 = (calls + n)%nat
  ∧ ∀ c : cell, c ∈ st.1 ↔
      c ∈ live
      ∨ (c.2 = y ∧ 0 ≤ c.1 < Z.of_nat n
         ∧ flt (draws (calls + Z.to_nat c.1)%nat) density = true).
Proof.
  induction n as [|n IH]; cbv zeta.
  - simpl. split; [lia|]. intros c. split; [tauto|].
    intros [?|[_ [? _]]]; [assumption|lia].
  - rewrite seqZ_S, foldl_app. simpl foldl.
    destruct (foldl _ _ (seqZ 0 (Z.of_nat n))) as [live' calls'].
    destruct IH as [Hcalls Hlive]. simpl in Hcalls, Hlive. subst calls'.
    unfold random_step.
    destruct (flt (draws (calls + n)%nat) density) eqn:Hd; simpl.
    + split; [lia|]. intros [cx cy].
      rewrite elem_of_union, elem_of_singleton, Hlive. simpl. split.
      * intros [Heq|[?|[? [? ?]]]]; [|tauto|right; repeat split; auto; lia].
        inversion Heq; subst. right. repeat split; try lia.
        rewrite <- Hd. do 2 f_equal. lia.
      * intros [?|[-> [Hx Hf]]]; [tauto|].
        destruct (decide (cx = Z.of_nat n)) as [->|Hne].
        -- left. reflexivity.
        -- right. right. repeat split; auto; lia.
    + split; [lia|]. intros [cx cy]. rewrite Hlive. simpl. split.
      * intros [?|[? [? ?]]]; [tauto|right; repeat split; auto; lia].
      * intros [?|[-> [Hx Hf]]]; [tauto|].
        destruct (decide (cx = Z.of_nat n)) as [->|Hne].
        -- rewrite Nat2Z.id in Hf. congruence.
        -- right. repeat split; auto; lia.
Qed.

Lemma scan_index_row (W : Z) (cx cy : Z) :
  0 ≤ cx < W → 0 ≤ cy →
  scan_index W (cx, cy) = (Z.to_nat cy * Z.to_nat W + Z.to_nat cx)%nat.
Proof.
  intros Hx Hy. unfold scan_index. simpl.
  rewrite Z2Nat.inj_add, Z2Nat.inj_mul by nia. reflexivity.
Qed.

(** The outer loop after [m] rows. *)
Lemma random_rows (g : GameOfLife) (calls m : nat) :
  let st := foldl (random_row flt draws g density) (∅, calls)
                  (seqZ 0 (Z.of_nat m)) in
  st.2 = (calls + m * Z.to_nat (width g))%nat
  ∧ ∀ c : cell, c ∈ st.1 ↔
      (0 ≤ c.1 < width g ∧ 0 ≤ c.2 < Z.of_nat m)
      ∧ flt (draws (calls + scan_index (width g) c)%nat) density = true.
Proof.
  induction m as [|m IH]; cbv zeta.
  - simpl. split; [lia|]. intros c. split.
    + intros Hc. by apply not_elem_of_empty in Hc.
    + intros [[_ ?] _]. lia.
  - rewrite seqZ_S, foldl_app. simpl foldl.
    destruct (foldl _ _ (seqZ 0 (Z.of_nat m))) as [live' calls'].
    destruct IH as [Hcalls Hlive]. simpl in Hcalls, Hlive. subst calls'.
    unfold random_row. rewrite (seqZ_to_nat (width g)).
    pose proof (random_columns (0 + Z.of_nat m) live'
                  (calls + m * Z.to_nat (width g)) (Z.to_nat (width g)))
      as [Hcalls Hrow].
    cbv zeta in Hcalls, Hrow. split; [rewrite Hcalls; lia|].
    intros [cx cy]. rewrite Hrow, Hlive. simpl. split.
    + intros [[[Hx Hy] Hf]|[-> [Hx Hf]]].
      * split; [lia|exact Hf].
      * split; [lia|].
        rewrite scan_index_row by lia.
        rewrite <- Hf. do 2 f_equal. lia.
    + intros [[Hx Hy] Hf].
      destruct (decide (cy = Z.of_nat m)) as [->|Hne].
      * right. split; [lia|]. split; [lia|].
        rewrite scan_index_row in Hf by lia.
        rewrite <- Hf. do 2 f_equal. lia.
      * left. split; [lia|exact Hf].
Qed.

Lemma initialize_random_spec (g : GameOfLife) (calls : nat) :
  let r := initialize_random flt draws g density calls in
  generation r.1 = generation g
  ∧ width r.1 = width g ∧ height r.1 = height g
  ∧ r.2 = (calls + Z.to_nat (height g) * Z.to_nat (width g))%nat
  ∧ ∀ c : cell, c ∈ live_cells r.1 ↔
      in_grid (width g) (height g) c
      ∧ flt (draws (calls + scan_index (width g) c)%nat) density = true.
Proof.
  cbv zeta. unfold initialize_random. rewrite (seqZ_to_nat (height g)).
  pose proof (random_rows g calls (Z.to_nat (height g))) as [Hcalls Hlive].
  cbv zeta in Hcalls, Hlive. simpl.
  split; [reflexivity|]. split; [reflexivity|]. split; [reflexivity|].
  split; [exact Hcalls|].
  intros c. rewrite Hlive. unfold in_grid.
  split; intros [[Hx Hy] Hf]; (split; [lia|exact Hf]).
Qed.

End randomize.

(** C7, as the code has it: [initialize_random] replaces the live-cell
    set and does not touch the generation counter.  Whatever the old set,
    the new one holds exactly the cells of the grid whose draw, taken in
    row-by-row order, is below [density]; the generation counter and the
    bounds are the ones before the call. *)
Theorem initialize_random_keeps_generation
    {float : Type} (flt : float → float → bool) (draws : nat → float)
    (g : Life.GameOfLife) (density : float) (calls : nat) :
  Life.generation (Life.initialize_random flt draws g density calls).1
    = Life.generation g
  ∧ Life.width (Life.initialize_random flt draws g density calls).1
    = Life.width g
  ∧ Life.height (Life.initialize_random flt draws g density calls).1
    = Life.height g
  ∧ ∀ c : cell,
      c ∈ Life.live_cells (Life.initialize_random flt draws g density calls).1
      ↔ LifeSpec.in_grid (Life.width g) (Life.height g) c
        ∧ flt (draws (calls + LifeSpec.scan_index (Life.width g) c)%nat)
              density = true.
Proof.
  pose proof (initialize_random_spec flt draws density g calls) as H.
  cbv zeta in H. tauto.
Qed.

Section text.
Import Py TextSpec.

Lemma app_cons (c : ascii) (s t : string) :
  String c s +:+ t = String c (s +:+ t).
Proof. reflexivity. Qed.

Lemma app_empty_l (t : string) : EmptyString +:+ t = t.
Proof. reflexivity. Qed.

Lemma app_empty_r (s : string) : s +:+ EmptyString = s.
Proof. induction s as [|c s IH]; [reflexivity|]. rewrite app_cons, IH. reflexivity. Qed.

Lemma app_assoc_string (s t u : string) : (s +:+ t) +:+ u = s +:+ (t +:+ u).
Proof.
  induction s as [|c s IH]; [reflexivity|]. rewrite !app_cons, IH. reflexivity.
Qed.

Lemma all_chars_app p (s t : string) :
  all_chars p (s +:+ t) = all_chars p s && all_chars p t.
Proof.
  induction s as [|c s IH]; [reflexivity|].
  rewrite app_cons. simpl. rewrite IH, andb_assoc. reflexivity.
Qed.

Lemma all_chars_weaken (p q : ascii → bool) (s : string) :
  (∀ c, p c = true → q c = true) →
  all_chars p s = true → all_chars q s = true.
Proof.
  intros Hpq. induction s as [|c s IH]; [reflexivity|]. simpl.
  rewrite !andb_true_iff. intros [Hc Hs]. split; auto.
Qed.

(** *** Decimal numerals *)

Lemma digit_of_pretty_N_char (n : N) :
  (n < 10)%N → digit_of (pretty_N_char n) = Some (Z.of_N n).
Proof.
  intros Hn.
  assert (n = 0 ∨ n = 1 ∨ n = 2 ∨ n = 3 ∨ n = 4 ∨ n = 5 ∨ n = 6
          ∨ n = 7 ∨ n = 8 ∨ n = 9)%N as Hcases by lia.
  repeat (destruct Hcases as [->|Hcases]; [reflexivity|]).
  subst n. reflexivity.
Qed.

Lemma numeral_char_pretty_N_char (n : N) :
  (n < 10)%N → numeral_char (pretty_N_char n) = true.
Proof.
  intros Hn. unfold numeral_char.
  rewrite (digit_of_pretty_N_char n Hn). reflexivity.
Qed.

Lemma all_chars_pretty_N_go (x : N) (s : string) :
  all_chars numeral_char s = true →
  all_chars numeral_char (pretty_N_go x s) = true.
Proof.
  revert s. induction (N.lt_wf_0 x) as [x _ IH]. intros s Hs.
  destruct (decide (x = 0%N)) as [->|Hx].
  - rewrite pretty_N_go_0. exact Hs.
  - rewrite pretty_N_go_step by lia. apply IH.
    + apply N.div_lt; lia.
    + simpl. rewrite Hs, andb_true_r.
      apply numeral_char_pretty_N_char, N.mod_lt. lia.
Qed.

(** Reading back the digits that [pretty_N_go] puts in front of [s]
    continues from the accumulator scaled by a power of ten. *)
Lemma digits_value_pretty_N_go (x : N) :
  (0 < x)%N →
  ∃ k : Z, ∀ (acc : Z) (b : bool) (s : string),
    digits_value acc b (pretty_N_go x s)
    = digits_value (acc * k + Z.of_N x) true s.
Proof.
  induction (N.lt_wf_0 x) as [x _ IH]. intros Hx.
  assert (Hmod : (x `mod` 10 < 10)%N) by (apply N.mod_lt; lia).
  assert (Hdm : x = (10 * (x `div` 10) + x `mod` 10)%N)
    by (apply N.div_mod; lia).
  destruct (decide (x `div` 10 = 0)%N) as [Hq|Hq].
  - exists 10. intros acc b s.
    rewrite pretty_N_go_step, Hq, pretty_N_go_0 by exact Hx. simpl.
    rewrite (digit_of_pretty_N_char _ Hmod).
    rewrite Hq in Hdm. f_equal. lia.
  - destruct (IH (x `div` 10)%N) as [k Hk].
    { apply N.div_lt; lia. }
    { apply N.neq_0_lt_0, Hq. }
    exists (k * 10). intros acc b s.
    rewrite pretty_N_go_step, Hk by exact Hx. simpl.
    rewrite (digit_of_pretty_N_char _ Hmod).
    f_equal. revert Hdm.
    generalize (x `div` 10)%N (x `mod` 10)%N. intros q r Hdm. lia.
Qed.

Lemma digits_value_pretty_pos (p : positive) :
  digits_value 0 false (pretty (N.pos p)) = Some (Z.pos p).
Proof.
  unfold pretty, pretty_N. rewrite decide_False by discriminate.
  destruct (digits_value_pretty_N_go (N.pos p)) as [k Hk]; [lia|].
  rewrite Hk. simpl. reflexivity.
Qed.

Lemma all_chars_pretty_pos (p : positive) :
  all_chars numeral_char (pretty (N.pos p)) = true.
Proof.
  unfold pretty, pretty_N. rewrite decide_False by discriminate.
  apply all_chars_pretty_N_go. reflexivity.
Qed.

Lemma str_pos (p : positive) : str (Z.pos p) = pretty (N.pos p).
Proof. reflexivity. Qed.

Lemma str_neg (p : positive) :
  str (Z.neg p) = String "-"%char (pretty (N.pos p)).
Proof. reflexivity. Qed.

Lemma all_chars_str (z : Z) : all_chars numeral_char (str z) = true.
Proof.
  destruct z as [|p|p].
  - reflexivity.
  - rewrite str_pos. apply all_chars_pretty_pos.
  - rewrite str_neg. simpl. apply all_chars_pretty_pos.
Qed.

(** A string that reads as digits starts with a digit. *)
Lemma digits_value_head (s : string) (v : Z) :
  digits_value 0 false s = Some v →
  ∃ c r d, s = String c r ∧ digit_of c = Some d.
Proof.
  destruct s as [|c r]; [discriminate|]. simpl.
  destruct (digit_of c) as [d|] eqn:Hd.
  - intros _. by exists c, r, d.
  - rewrite andb_false_r. discriminate.
Qed.

Lemma signed_value_digit (c : ascii) (r : string) (d : Z) :
  digit_of c = Some d →
  signed_value (String c r) = digits_value 0 false (String c r).
Proof.
  destruct c as [[] [] [] [] [] [] [] []]; try discriminate; reflexivity.
Qed.

Lemma str_head (z : Z) :
  ∃ c r, str z = String c r ∧ numeral_char c = true.
Proof.
  destruct z as [|p|p].
  - by exists "0"%char, EmptyString.
  - rewrite str_pos.
    destruct (digits_value_head _ _ (digits_value_pretty_pos p))
      as (c & r & d & Hs & Hd).
    exists c, r. split; [exact Hs|]. unfold numeral_char. rewrite Hd. reflexivity.
  - rewrite str_neg. eexists _, _. split; reflexivity.
Qed.

Lemma signed_value_str (z : Z) : signed_value (str z) = Some z.
Proof.
  destruct z as [|p|p].
  - reflexivity.
  - rewrite str_pos.
    pose proof (digits_value_pretty_pos p) as Hv.
    destruct (digits_value_head _ _ Hv) as (c & r & d & Hs & Hd).
    rewrite Hs in Hv |- *. rewrite (signed_value_digit c r d Hd). exact Hv.
  - rewrite str_neg. simpl. rewrite digits_value_pretty_pos. reflexivity.
Qed.

End text.

Section parsing.
Import Py Life LifeSpec TextSpec.

(** *** Stripping *)

Lemma lstrip_by_head p (c : ascii) (r : string) :
  p c = false → lstrip_by p (String c r) = String c r.
Proof. intros Hc. simpl. rewrite Hc. reflexivity. Qed.

Lemma rstrip_by_cons p (c : ascii) (s : string) :
  p c = false → rstrip_by p (String c s) = String c (rstrip_by p s).
Proof. intros Hc. simpl. rewrite Hc. destruct (rstrip_by p s); reflexivity. Qed.

Lemma rstrip_by_app p (s t : string) :
  all_chars (λ c, negb (p c)) s = true →
  rstrip_by p (s +:+ t) = s +:+ rstrip_by p t.
Proof.
  induction s as [|c s IH]; [reflexivity|]. simpl all_chars.
  rewrite andb_true_iff, negb_true_iff. intros [Hc Hs].
  rewrite !app_cons, rstrip_by_cons, IH by assumption. reflexivity.
Qed.

Lemma rstrip_by_id p (s : string) :
  all_chars (λ c, negb (p c)) s = true → rstrip_by p s = s.
Proof.
  intros Hs. rewrite <- (app_empty_r s) at 1.
  rewrite rstrip_by_app by exact Hs. apply app_empty_r.
Qed.

Lemma numeral_char_cases (c : ascii) :
  numeral_char c = true →
  is_space c = false ∧ is_int_space c = false
  ∧ bool_decide (c = ","%char) = false
  ∧ bool_decide (c = LF) = false ∧ bool_decide (c = CR) = false.
Proof.
  destruct c as [[] [] [] [] [] [] [] []]; try discriminate;
    intros _; repeat split; reflexivity.
Qed.

Lemma pattern_char_cases (c : ascii) :
  pattern_char c = true →
  is_space c = false
  ∧ bool_decide (c = LF) = false ∧ bool_decide (c = CR) = false.
Proof.
  destruct c as [[] [] [] [] [] [] [] []]; try discriminate;
    intros _; repeat split; reflexivity.
Qed.

(** *** [int] after [str] *)

Lemma int_str (z : Z) : int (str z) = Returned z.
Proof.
  unfold int.
  destruct (str_head z) as (c & r & Hs & Hc).
  assert (Hns : all_chars (λ c, negb (is_int_space c)) (str z) = true).
  { apply (all_chars_weaken numeral_char); [|apply all_chars_str].
    intros c' Hc'. apply numeral_char_cases in Hc' as (_ & -> & _).
    reflexivity. }
  rewrite Hs in Hns |- *.
  rewrite lstrip_by_head by (apply numeral_char_cases in Hc; tauto).
  rewrite rstrip_by_id by exact Hns.
  rewrite <- Hs, signed_value_str. reflexivity.
Qed.

(** *** Splitting at the comma *)

Lemma split_no_sep (sep : ascii) (s : string) :
  all_chars (λ c, negb (bool_decide (c = sep))) s = true →
  split sep s = [s].
Proof.
  induction s as [|c s IH]; [reflexivity|]. simpl.
  rewrite andb_true_iff, negb_true_iff. intros [Hc Hs].
  rewrite Hc, IH by exact Hs. reflexivity.
Qed.

Lemma split_app_sep (sep : ascii) (s t : string) :
  all_chars (λ c, negb (bool_decide (c = sep))) s = true →
  split sep (s +:+ String sep t) = s :: split sep t.
Proof.
  induction s as [|c s IH].
  - intros _. rewrite app_empty_l. simpl.
    rewrite bool_decide_eq_true_2 by reflexivity. reflexivity.
  - simpl all_chars. rewrite andb_true_iff, negb_true_iff. intros [Hc Hs].
    rewrite app_cons. simpl. rewrite Hc, IH by exact Hs. reflexivity.
Qed.

Lemma str_no_comma (z : Z) :
  all_chars (λ c, negb (bool_decide (c = ","%char))) (str z) = true.
Proof.
  apply (all_chars_weaken numeral_char); [|apply all_chars_str].
  intros c Hc. apply numeral_char_cases in Hc as (_ & _ & -> & _).
  reflexivity.
Qed.

(** The text of a pattern line without its line feed. *)
Lemma parse_line_pattern (x y : Z) :
  parse_line (str x +:+ "," +:+ str y) = Returned (x, y).
Proof.
  unfold parse_line.
  change ("," +:+ str y) with (String ","%char (str y)).
  rewrite split_app_sep, split_no_sep by apply str_no_comma.
  rewrite !int_str. reflexivity.
Qed.

Lemma all_chars_pattern_text (x y : Z) :
  all_chars pattern_char (str x +:+ "," +:+ str y) = true.
Proof.
  rewrite !all_chars_app, !andb_true_iff. split; [|split].
  - apply (all_chars_weaken numeral_char); [|apply all_chars_str].
    intros c Hc. unfold pattern_char. rewrite Hc. reflexivity.
  - reflexivity.
  - apply (all_chars_weaken numeral_char); [|apply all_chars_str].
    intros c Hc. unfold pattern_char. rewrite Hc. reflexivity.
Qed.

Lemma pattern_line_text (c : cell) :
  pattern_line c = (str c.1 +:+ "," +:+ str c.2) +:+ String LF EmptyString.
Proof. unfold pattern_line. rewrite !app_assoc_string. reflexivity. Qed.

Lemma strip_pattern_line (c : cell) :
  strip (pattern_line c) = str c.1 +:+ "," +:+ str c.2.
Proof.
  rewrite pattern_line_text. unfold strip.
  destruct (str_head c.1) as (h & r & Hs & Hh).
  assert (Htext : all_chars (λ a, negb (is_space a))
                            (str c.1 +:+ "," +:+ str c.2) = true).
  { apply (all_chars_weaken pattern_char); [|apply all_chars_pattern_text].
    intros a Ha. apply pattern_char_cases in Ha as (-> & _). reflexivity. }
  rewrite Hs in Htext |- *. rewrite !app_cons in Htext |- *.
  rewrite lstrip_by_head by (apply numeral_char_cases in Hh; tauto).
  rewrite <- !app_cons in Htext |- *.
  rewrite rstrip_by_app by exact Htext.
  simpl rstrip_by. apply app_empty_r.
Qed.

Lemma strip_pattern_line_nonempty (c : cell) :
  strip (pattern_line c) ≠ EmptyString.
Proof.
  rewrite strip_pattern_line.
  destruct (str_head c.1) as (h & r & -> & _). discriminate.
Qed.

(** *** Reading a written file back as lines *)

Lemma file_lines_line (text rest : string) :
  all_chars pattern_char text = true →
  file_lines ((text +:+ String LF EmptyString) +:+ rest)
  = (text +:+ String LF EmptyString) :: file_lines rest.
Proof.
  induction text as [|c text IH].
  - intros _. reflexivity.
  - simpl all_chars. rewrite andb_true_iff. intros [Hc Htext].
    apply pattern_char_cases in Hc as (_ & HLF & HCR).
    rewrite !app_cons. simpl file_lines. rewrite HLF, HCR.
    rewrite IH by exact Htext. reflexivity.
Qed.

Lemma foldl_append (acc : string) (lines : list string) :
  foldl String.append acc lines
  = acc +:+ foldl String.append EmptyString lines.
Proof.
  revert acc. induction lines as [|l lines IH]; intros acc; simpl.
  - symmetry. apply app_empty_r.
  - rewrite (IH (acc +:+ l)), (IH (EmptyString +:+ l)).
    rewrite app_empty_l, app_assoc_string. reflexivity.
Qed.

Lemma file_lines_written (cells : list cell) :
  file_lines (foldl String.append EmptyString (pattern_line <$> cells))
  = pattern_line <$> cells.
Proof.
  induction cells as [|c cells IH]; [reflexivity|].
  rewrite fmap_cons. simpl foldl. rewrite foldl_append, app_empty_l.
  rewrite pattern_line_text, file_lines_line by apply all_chars_pattern_text.
  rewrite IH. reflexivity.
Qed.

End parsing.

Section persistence.
Import Py Life LifeSpec TextSpec.

Lemma in_bounds_set_live_cells (g : GameOfLife) (s : gset cell) x y :
  in_bounds (set_live_cells g s) x y = in_bounds g x y.
Proof. reflexivity. Qed.

(** Loading the lines written for cells that all fit in the grid adds
    every one of them and raises nothing. *)
Lemma load_lines_written (cells : list cell) (g : GameOfLife) :
  Forall (in_grid (width g) (height g)) cells →
  load_lines g (pattern_line <$> cells)
  = (set_live_cells g (list_to_set cells ∪ live_cells g), None).
Proof.
  revert g. induction cells as [|c cells IH]; intros g Hin.
  - simpl. rewrite (left_id_L ∅ (∪)). destruct g; reflexivity.
  - apply Forall_cons in Hin as [Hc Hin].
    rewrite fmap_cons. simpl load_lines.
    rewrite (bool_decide_eq_false_2 _ (strip_pattern_line_nonempty c)).
    rewrite strip_pattern_line, parse_line_pattern.
    apply (in_bounds_in_grid g c) in Hc. rewrite Hc.
    rewrite IH by exact Hin. unfold set_live_cells. simpl.
    f_equal. f_equal. apply set_eq. intros d.
    rewrite !elem_of_union, !elem_of_singleton. destruct c. simpl. tauto.
Qed.

(** *** Sorting *)

Global Instance tuple_le_total : Total tuple_le.
Proof. intros a b. unfold tuple_le. lia. Qed.

Global Instance tuple_le_trans : Transitive tuple_le.
Proof. intros a b c. unfold tuple_le. lia. Qed.

Lemma sorted_permutation (s : gset cell) : sorted s ≡ₚ elements s.
Proof. apply merge_sort_Permutation. Qed.

Lemma elem_of_sorted (s : gset cell) (c : cell) : c ∈ sorted s ↔ c ∈ s.
Proof. rewrite sorted_permutation. apply elem_of_elements. Qed.

Lemma list_to_set_sorted (s : gset cell) : list_to_set (sorted s) = s.
Proof.
  apply set_eq. intros c. rewrite elem_of_list_to_set. apply elem_of_sorted.
Qed.

Lemma NoDup_sorted (s : gset cell) : NoDup (sorted s).
Proof. rewrite sorted_permutation. apply NoDup_elements. Qed.

Lemma tuple_le_lt (a b : cell) : tuple_le a b → a ≠ b → tuple_lt a b.
Proof.
  destruct a as [ax ay], b as [bx b_y]. unfold tuple_le, tuple_lt. simpl.
  intros Hle Hne.
  destruct (decide (ay = b_y)) as [->|Hy]; [|lia].
  destruct (decide (ax = bx)) as [->|Hx]; [congruence|lia].
Qed.

Lemma StronglySorted_strict (l : list cell) :
  StronglySorted tuple_le l → NoDup l → StronglySorted tuple_lt l.
Proof.
  induction 1 as [|a l Hl IH Hall]; intros Hnd; constructor.
  - apply IH. by apply NoDup_cons in Hnd as [_ ?].
  - apply NoDup_cons in Hnd as [Ha _].
    rewrite Forall_forall in Hall |- *. intros b Hb.
    apply tuple_le_lt; [by apply Hall|]. intros ->. contradiction.
Qed.

Lemma sorted_ascending (s : gset cell) : StronglySorted tuple_lt (sorted s).
Proof.
  apply StronglySorted_strict; [|apply NoDup_sorted].
  apply StronglySorted_merge_sort; apply _.
Qed.

(** *** Loading with a malformed line *)

Lemma parse_line_empty : ∀ c, parse_line EmptyString ≠ Returned c.
Proof. intros c. discriminate. Qed.

(** The lines before the first one that raises: every cell they give
    that fits in the grid is added, and nothing else. *)
Lemma load_lines_well_formed (before : list string) (g : GameOfLife) :
  Forall (λ l, strip l = EmptyString ∨ ∃ c, parse_line (strip l) = Returned c)
         before →
  ∃ live, load_lines g before = (set_live_cells g live, None)
    ∧ ∀ c, c ∈ live ↔
        c ∈ live_cells g
        ∨ (in_grid (width g) (height g) c
           ∧ ∃ l, l ∈ before ∧ parse_line (strip l) = Returned c).
Proof.
  revert g. induction before as [|l before IH]; intros g Hok.
  - exists (live_cells g). split; [destruct g; reflexivity|].
    intros c. split; [tauto|]. intros [?|[_ [l [Hl _]]]]; [assumption|].
    by apply elem_of_nil in Hl.
  - apply Forall_cons in Hok as [Hl Hok]. simpl load_lines.
    case_bool_decide as Hblank.
    + destruct (IH g Hok) as (live & Hload & Hlive).
      exists live. split; [exact Hload|]. intros c. rewrite Hlive.
      split; (intros [?|[Hg [l' [Hl' Hp]]]]; [tauto|right]).
      * split; [exact Hg|]. exists l'. split; [by right|exact Hp].
      * split; [exact Hg|]. apply elem_of_cons in Hl' as [->|Hl'].
        -- rewrite Hblank in Hp. by apply parse_line_empty in Hp.
        -- by exists l'.
    + destruct Hl as [?|[[x y] Hxy]]; [contradiction|]. rewrite Hxy.
      destruct (in_bounds g x y) eqn:Hb.
      * destruct (IH (set_live_cells g ({[ (x, y) ]} ∪ live_cells g)) Hok)
          as (live & Hload & Hlive).
        exists live. split; [exact Hload|]. intros c. rewrite Hlive. simpl.
        rewrite elem_of_union, elem_of_singleton.
        apply (in_bounds_in_grid g (x, y)) in Hb. split.
        -- intros [[->|?]|[Hg [l' [Hl' Hp]]]]; [right|tauto|right].
           ++ split; [exact Hb|]. exists l. split; [left|exact Hxy].
           ++ split; [exact Hg|]. exists l'. split; [by right|exact Hp].
        -- intros [?|[Hg [l' [Hl' Hp]]]]; [tauto|].
           apply elem_of_cons in Hl' as [->|Hl'].
           ++ left. left. congruence.
           ++ right. split; [exact Hg|]. by exists l'.
      * destruct (IH g Hok) as (live & Hload & Hlive).
        exists live. split; [exact Hload|]. intros c. rewrite Hlive.
        split; (intros [?|[Hg [l' [Hl' Hp]]]]; [tauto|right]).
        -- split; [exact Hg|]. exists l'. split; [by right|exact Hp].
        -- split; [exact Hg|]. apply elem_of_cons in Hl' as [->|Hl'].
           ++ rewrite Hxy in Hp. inversion Hp; subst.
              apply (in_bounds_in_grid g (x, y)) in Hg. simpl in Hg. congruence.
           ++ by exists l'.
Qed.


End persistence.

(** C3: when every cell of the live-cell set of [g] lies inside the
    bounds of the loading engine [g'], loading the file that
    [save_pattern] wrote leaves [g'] with exactly that live-cell set (and
    generation 0), prints nothing and raises nothing.  The file reads
    back as the lines written: one line ["x,y"] per live cell, the cells
    in strictly ascending lexicographic order of [(x, y)], and no line
    blank. *)
Theorem save_load_round_trip (g g' : Life.GameOfLife)
    (filename : string) (fs : gmap string string) :
  set_Forall (LifeSpec.in_grid (Life.width g') (Life.height g'))
             (Life.live_cells g) →
  Life.load_pattern g' filename (Life.save_pattern g filename fs)
    = Life.mkLoaded
        (Life.mkGame (Life.width g') (Life.height g') (Life.live_cells g) 0
                     (Life.paused g'))
        [] None
  ∧ ∃ (content : string) (cells : list cell),
      Life.save_pattern g filename fs !! filename = Some content
      ∧ Py.file_lines content = Life.pattern_lines g
      ∧ Life.pattern_lines g = Life.pattern_line <$> cells
      ∧ StronglySorted TextSpec.tuple_lt cells
      ∧ (∀ c, c ∈ cells ↔ c ∈ Life.live_cells g)
      ∧ Forall (λ line, Py.strip line ≠ EmptyString) (Life.pattern_lines g).
Proof.
  intros Hin. split.
  - unfold Life.load_pattern, Life.save_pattern, Life.pattern_lines.
    rewrite lookup_insert_eq, file_lines_written.
    rewrite load_lines_written.
    + unfold Life.set_live_cells, Life.clear. simpl.
      rewrite list_to_set_sorted, (right_id_L ∅ (∪)). reflexivity.
    + apply Forall_forall. intros c Hc. apply elem_of_sorted in Hc.
      apply Hin, Hc.
  - eexists _, (Life.sorted (Life.live_cells g)).
    split; [apply lookup_insert_eq|].
    split; [apply file_lines_written|].
    split; [reflexivity|].
    split; [apply sorted_ascending|].
    split; [apply elem_of_sorted|].
    unfold Life.pattern_lines. apply Forall_fmap, Forall_forall.
    intros c _. apply strip_pattern_line_nonempty.
Qed.

(** The lying blinker is inside the 5×5 grid. *)
Lemma horizontal_in_5x5 :
  set_Forall (LifeSpec.in_grid 5 5) Examples.horizontal.
Proof.
  intros c Hc. apply horizontal_inner in Hc. unfold LifeSpec.in_grid. lia.
Qed.

(** Saving the 5×5 blinker and loading the file into a fresh 5×5 engine
    gives the blinker engine back. *)
Lemma save_load_round_trip_witness :
  Life.load_pattern Examples.empty_5x5 Examples.patterns_txt
    (Life.save_pattern Examples.blinker_5x5 Examples.patterns_txt ∅)
  = Life.mkLoaded Examples.blinker_5x5 [] None.
Proof.
  apply (save_load_round_trip Examples.blinker_5x5 Examples.empty_5x5
           Examples.patterns_txt ∅).
  exact horizontal_in_5x5.
Defined.

(** The step of the 5×5 blinker is Conway's rule over all 25 cells. *)
Lemma candidates_refine_full_grid_witness :
  Life.live_cells (Life.next_generation Examples.blinker_5x5)
  = LifeSpec.conway_full_grid 5 5 Examples.horizontal.
Proof.
  apply (candidates_refine_full_grid Examples.blinker_5x5).
  exact horizontal_in_5x5.
Defined.




(** C7 fails as stated: after one [next_generation] the counter of an
    engine is 1, and [initialize_random] with density 0.25
    leaves it at 1, not 0. *)
Lemma initialize_random_does_not_reset_generation :
  Life.generation
    (Life.initialize_random PrimFloat.ltb Examples.draws_half
       (Life.next_generation Examples.blinker_5x5) 0.25%float 0).1
  = 1
  ∧ Life.generation
      (Life.initialize_random PrimFloat.ltb Examples.draws_half
         (Life.next_generation Examples.blinker_5x5) 0.25%float 0).1
    ≠ Life.generation (Life.clear (Life.next_generation Examples.blinker_5x5)).
Proof. split; [reflexivity|]. simpl. discriminate. Qed.

(** * Further properties of the engine *)

Section stepping.
Import Py Life LifeSpec.

Lemma adjacent_or_equal_sym (s c : cell) :
  adjacent_or_equal s c → adjacent_or_equal c s.
Proof. unfold adjacent_or_equal. lia. Qed.

Lemma live_at_agree (g1 g2 : GameOfLife) nx ny :
  width g1 = width g2 → height g1 = height g2 →
  ((nx, ny) ∈ live_cells g1 ↔ (nx, ny) ∈ live_cells g2) →
  live_at g1 nx ny = live_at g2 nx ny.
Proof.
  intros HW HH Hiff. unfold live_at, in_bounds. rewrite HW, HH.
  rewrite (bool_decide_ext _ _ Hiff). reflexivity.
Qed.

Lemma size_insert_le (c : cell) (s : gset cell) :
  (size ({[ c ]} ∪ s) ≤ S (size s))%nat.
Proof.
  rewrite size_union_alt, size_singleton.
  apply le_n_S, subseteq_size. intros d Hd.
  apply elem_of_difference in Hd. tauto.
Qed.

Lemma size_candidate_step (g : GameOfLife) (x y dy dx : Z) (cs : gset cell) :
  (size (candidate_step g x y dy cs dx) ≤ S (size cs))%nat.
Proof.
  unfold candidate_step. simpl. destruct (in_bounds g _ _).
  - apply size_insert_le.
  - lia.
Qed.

Lemma size_candidate_row (g : GameOfLife) (x y dy : Z) (cs : gset cell) :
  (size (foldl (candidate_step g x y dy) cs offsets) ≤ size cs + 3)%nat.
Proof.
  unfold offsets. simpl foldl.
  pose proof (size_candidate_step g x y dy (-1) cs).
  pose proof (size_candidate_step g x y dy 0
                (candidate_step g x y dy cs (-1))).
  pose proof (size_candidate_step g x y dy 1
                (candidate_step g x y dy
                   (candidate_step g x y dy cs (-1)) 0)).
  lia.
Qed.

Lemma size_add_candidates (g : GameOfLife) (cs : gset cell) (c : cell) :
  (size (add_candidates g cs c) ≤ size cs + 9)%nat.
Proof.
  destruct c as [x y]. unfold add_candidates.
  pose proof (size_candidate_row g x y (-1) cs).
  pose proof (size_candidate_row g x y 0
                (foldl (candidate_step g x y (-1)) cs offsets)).
  pose proof (size_candidate_row g x y 1
                (foldl (candidate_step g x y 0)
                   (foldl (candidate_step g x y (-1)) cs offsets) offsets)).
  unfold offsets in *. simpl foldl in *. lia.
Qed.

Lemma size_foldl_add_candidates (g : GameOfLife) (l : list cell)
    (cs : gset cell) :
  (size (foldl (add_candidates g) cs l) ≤ size cs + 9 * length l)%nat.
Proof.
  revert cs. induction l as [|c l IH]; intros cs; simpl; [lia|].
  pose proof (IH (add_candidates g cs c)).
  pose proof (size_add_candidates g cs c). lia.
Qed.

End stepping.

(** X1: a step of an engine with no live cell leaves it with no live
    cell, and still adds 1 to the generation counter. *)
Theorem next_generation_empty (g : Life.GameOfLife) :
  Life.live_cells g = ∅ →
  Life.live_cells (Life.next_generation g) = ∅
  ∧ Life.generation (Life.next_generation g) = Life.generation g + 1.
Proof.
  intros Hempty. split; [|reflexivity].
  apply set_eq. intros c. rewrite elem_of_next_generation, elem_of_candidates.
  rewrite Hempty. split.
  - intros [[_ [s [Hs _]]] _]. exact Hs.
  - intros Hc. by apply not_elem_of_empty in Hc.
Qed.

(** The empty 5×5 engine steps to an empty one. *)
Lemma next_generation_empty_witness :
  Life.live_cells (Life.next_generation Examples.empty_5x5) = ∅.
Proof. apply (next_generation_empty Examples.empty_5x5). reflexivity. Defined.

(** X2: on a grid whose width or height is not positive, which the
    constructor accepts, one step removes every live cell. *)
Theorem next_generation_degenerate_grid (g : Life.GameOfLife) :
  Life.width g ≤ 0 ∨ Life.height g ≤ 0 →
  Life.live_cells (Life.next_generation g) = ∅.
Proof.
  intros Hdeg. apply set_eq. intros c.
  rewrite elem_of_next_generation, elem_of_candidates, in_bounds_in_grid.
  unfold LifeSpec.in_grid. split.
  - intros [[Hg _] _]. lia.
  - intros Hc. by apply not_elem_of_empty in Hc.
Qed.

(** A blinker held by an engine of width 0 is gone after one step. *)
Lemma next_generation_degenerate_grid_witness :
  Life.live_cells
    (Life.next_generation (Life.mkGame 0 5 Examples.horizontal 0 true)) = ∅.
Proof.
  apply (next_generation_degenerate_grid
           (Life.mkGame 0 5 Examples.horizontal 0 true)).
  left. simpl. lia.
Defined.

(** X3: the step is local.  When two engines with the same bounds agree
    on which cells of the 3×3 block around [c] are live, they agree on
    whether [c] is live after one step. *)
Theorem next_generation_local (g1 g2 : Life.GameOfLife) (c : cell) :
  Life.width g1 = Life.width g2 →
  Life.height g1 = Life.height g2 →
  (∀ d, LifeSpec.adjacent_or_equal c d →
        (d ∈ Life.live_cells g1 ↔ d ∈ Life.live_cells g2)) →
  c ∈ Life.live_cells (Life.next_generation g1)
  ↔ c ∈ Life.live_cells (Life.next_generation g2).
Proof.
  intros HW HH Hblock.
  rewrite !elem_of_next_generation, !elem_of_candidates, !in_bounds_in_grid.
  unfold LifeSpec.rule_holds, LifeSpec.conway. rewrite <- HW, <- HH.
  assert (Hcount : Life.count_live_neighbors g1 c.1 c.2
                   = Life.count_live_neighbors g2 c.1 c.2).
  { rewrite !count_live_neighbors_unfold. destruct c as [x y]. simpl.
    repeat (f_equal; [|apply live_at_agree; [exact HW|exact HH|];
                       apply Hblock; unfold LifeSpec.adjacent_or_equal;
                       simpl; lia]).
    apply live_at_agree; [exact HW|exact HH|].
    apply Hblock. unfold LifeSpec.adjacent_or_equal. simpl. lia. }
  rewrite Hcount.
  rewrite (Hblock c (adjacent_or_equal_refl c)).
  assert (Hnear : (∃ s, s ∈ Life.live_cells g1 ∧ LifeSpec.adjacent_or_equal s c)
                  ↔ (∃ s, s ∈ Life.live_cells g2
                          ∧ LifeSpec.adjacent_or_equal s c)).
  { split; intros [s [Hs Hadj]]; exists s; (split; [|exact Hadj]);
      apply (Hblock s (adjacent_or_equal_sym s c Hadj)); exact Hs. }
  rewrite Hnear. reflexivity.
Qed.

(** Two 5×5 engines holding the blinker, with different counters, agree
    on the cell (2,1) after a step. *)
Lemma next_generation_local_witness :
  (2, 1) ∈ Life.live_cells (Life.next_generation Examples.blinker_5x5)
  ↔ (2, 1) ∈ Life.live_cells
       (Life.next_generation (Life.mkGame 5 5 Examples.horizontal 7 false)).
Proof.
  apply (next_generation_local Examples.blinker_5x5
           (Life.mkGame 5 5 Examples.horizontal 7 false) (2, 1)).
  - reflexivity.
  - reflexivity.
  - intros d _. reflexivity.
Defined.

(** X4: a step examines at most nine candidates per live cell, and the
    new live-cell set is no larger than the candidate set. *)
Theorem next_generation_size (g : Life.GameOfLife) :
  (size (Life.live_cells (Life.next_generation g)) ≤ size (Life.candidates g)
   ∧ size (Life.candidates g) ≤ 9 * size (Life.live_cells g))%nat.
Proof.
  split.
  - apply subseteq_size. intros c Hc.
    apply elem_of_next_generation in Hc. tauto.
  - unfold Life.candidates.
    pose proof (size_foldl_add_candidates g
                  (elements (Life.live_cells g)) ∅) as Hsize.
    rewrite size_empty in Hsize. exact Hsize.
Qed.

(** X5: toggling the same cell twice gives the engine back as it was,
    for every cell, inside the grid or not. *)
Theorem toggle_cell_twice (g : Life.GameOfLife) (x y : Z) :
  (g1 ← Life.toggle_cell g x y; Life.toggle_cell g1 x y) = Py.Returned g.
Proof.
  destruct g as [w h live gen p].
  destruct (decide ((x, y) ∈ live)) as [Hin|Hout].
  - rewrite toggle_cell_live by exact Hin. simpl.
    rewrite toggle_cell_dead
      by (simpl; rewrite elem_of_difference, elem_of_singleton; tauto).
    unfold Life.set_live_cells. simpl. do 2 f_equal.
    apply set_eq. intros c.
    rewrite elem_of_union, elem_of_difference, elem_of_singleton.
    destruct (decide (c = (x, y))) as [->|Hne]; tauto.
  - rewrite toggle_cell_dead by exact Hout. simpl.
    rewrite toggle_cell_live
      by (simpl; rewrite elem_of_union, elem_of_singleton; tauto).
    unfold Life.set_live_cells. simpl. do 2 f_equal.
    apply set_eq. intros c.
    rewrite elem_of_difference, elem_of_union, elem_of_singleton.
    destruct (decide (c = (x, y))) as [->|Hne]; tauto.
Qed.

Section loading.
Import Py Life LifeSpec TextSpec.

(** Whatever the lines, loading changes neither the bounds nor the
    counter, and adds cells of the grid only. *)
Lemma load_lines_keeps (lines : list string) (g : GameOfLife) :
  width (load_lines g lines).1 = width g
  ∧ height (load_lines g lines).1 = height g
  ∧ generation (load_lines g lines).1 = generation g
  ∧ paused (load_lines g lines).1 = paused g
  ∧ ∀ c, c ∈ live_cells (load_lines g lines).1 →
         c ∈ live_cells g ∨ in_grid (width g) (height g) c.
Proof.
  revert g. induction lines as [|l lines IH]; intros g; simpl load_lines.
  - repeat split. intros c Hc. left. exact Hc.
  - case_bool_decide; [apply IH|].
    destruct (parse_line (strip l)) as [[x y]|e].
    + destruct (in_bounds g x y) eqn:Hb; [|apply IH].
      destruct (IH (set_live_cells g ({[ (x, y) ]} ∪ live_cells g)))
        as (HW & HH & Hgen & Hp & Hlive).
      simpl in HW, HH, Hgen, Hp, Hlive.
      repeat (split; [assumption|]).
      intros c Hc. apply Hlive in Hc as [Hc|Hc]; [|right; exact Hc].
      apply elem_of_union in Hc as [Hc|Hc]; [|left; exact Hc].
      apply elem_of_singleton in Hc. subst c. right.
      apply (in_bounds_in_grid g (x, y)), Hb.
    + simpl. repeat split. intros c Hc. left. exact Hc.
Qed.

Lemma parse_strip_pattern_line (c : cell) :
  parse_line (strip (pattern_line c)) = Returned c.
Proof.
  rewrite strip_pattern_line, parse_line_pattern. destruct c. reflexivity.
Qed.

Lemma pattern_line_inj (c d : cell) : pattern_line c = pattern_line d → c = d.
Proof.
  intros Heq. pose proof (parse_strip_pattern_line c) as Hc.
  rewrite Heq, parse_strip_pattern_line in Hc. congruence.
Qed.

Lemma fmap_pattern_line_inj (l1 l2 : list cell) :
  pattern_line <$> l1 = pattern_line <$> l2 → l1 = l2.
Proof.
  revert l2. induction l1 as [|c l1 IH]; intros [|d l2] Heq;
    try discriminate; [reflexivity|].
  rewrite !fmap_cons in Heq. inversion Heq as [[Hc Hl]].
  f_equal; [apply pattern_line_inj, Hc|apply IH, Hl].
Qed.

(** The pieces of a string that splits in one or in two. *)
Lemma split_nonempty (sep : ascii) (s : string) : split sep s ≠ [].
Proof.
  destruct s as [|c s]; simpl; [discriminate|].
  case_bool_decide; [discriminate|]. destruct (split sep s); discriminate.
Qed.

Lemma split_one (sep : ascii) (s p : string) :
  split sep s = [p] →
  s = p ∧ all_chars (λ c, negb (bool_decide (c = sep))) p = true.
Proof.
  revert p. induction s as [|c s IH]; intros p; simpl.
  - intros [= <-]. split; reflexivity.
  - case_bool_decide as Hc.
    + intros [= _ Hs]. by apply split_nonempty in Hs.
    + destruct (split sep s) as [|q qs] eqn:Hs; [by apply split_nonempty in Hs|].
      intros [= <- ->]. destruct (IH q eq_refl) as [-> Hq].
      split; [reflexivity|]. simpl.
      rewrite (bool_decide_eq_false_2 _ Hc), Hq. reflexivity.
Qed.

Lemma split_two (sep : ascii) (s p0 p1 : string) :
  split sep s = [p0; p1] →
  s = p0 +:+ String sep p1
  ∧ all_chars (λ c, negb (bool_decide (c = sep))) p0 = true
  ∧ all_chars (λ c, negb (bool_decide (c = sep))) p1 = true.
Proof.
  revert p0. induction s as [|c s IH]; intros p0; simpl; [discriminate|].
  case_bool_decide as Hc.
  - intros [= <- Hs]. apply split_one in Hs as [-> Hp1]. subst c.
    split; [reflexivity|]. split; [reflexivity|exact Hp1].
  - destruct (split sep s) as [|q qs] eqn:Hs; [discriminate|].
    intros [= <- ->]. destruct (IH q eq_refl) as (-> & Hq & Hp1).
    split; [reflexivity|]. split; [|exact Hp1]. simpl.
    rewrite (bool_decide_eq_false_2 _ Hc), Hq. reflexivity.
Qed.

End loading.

(** X6: whatever the file holds and whether or not the load raises,
    [load_pattern] leaves the bounds as they were, the generation at 0
    and every live cell inside the grid; nothing of the live-cell set or
    the counter before the call has any effect on the result. *)
Theorem load_pattern_establishes_invariant (g : Life.GameOfLife)
    (filename : string) (fs : gmap string string) :
  Life.width (Life.game (Life.load_pattern g filename fs)) = Life.width g
  ∧ Life.height (Life.game (Life.load_pattern g filename fs)) = Life.height g
  ∧ Life.generation (Life.game (Life.load_pattern g filename fs)) = 0
  ∧ set_Forall (LifeSpec.in_grid (Life.width g) (Life.height g))
               (Life.live_cells (Life.game (Life.load_pattern g filename fs)))
  ∧ Life.load_pattern g filename fs
    = Life.load_pattern (Life.mkGame (Life.width g) (Life.height g) ∅ 0
                                     (Life.paused g)) filename fs.
Proof.
  assert (Hsame : Life.load_pattern g filename fs
                  = Life.load_pattern
                      (Life.mkGame (Life.width g) (Life.height g) ∅ 0
                                   (Life.paused g)) filename fs)
    by reflexivity.
  revert Hsame. generalize (Life.load_pattern
                              (Life.mkGame (Life.width g) (Life.height g) ∅ 0
                                           (Life.paused g)) filename fs).
  intros r Hsame. unfold Life.load_pattern in *.
  destruct (fs !! filename) as [content|].
  - pose proof (load_lines_keeps (Py.file_lines content) (Life.clear g))
      as (HW & HH & Hgen & _ & Hlive).
    destruct (Life.load_lines (Life.clear g) (Py.file_lines content))
      as [g' e]. simpl in *.
    repeat (split; [assumption|]). split; [|exact Hsame].
    intros c Hc. apply Hlive in Hc as [Hc|Hc]; [|exact Hc].
    by apply not_elem_of_empty in Hc.
  - simpl. repeat (split; [reflexivity|]). split; [|exact Hsame].
    intros c Hc. by apply not_elem_of_empty in Hc.
Qed.

(** X7: when every line of the file is blank or parses as two integers,
    [load_pattern] raises nothing and prints nothing; blank lines are
    skipped, cells outside the grid are dropped, and the live-cell set
    is exactly the set of cells inside the grid that some line gives. *)
Theorem load_pattern_well_formed (g : Life.GameOfLife) (filename : string)
    (fs : gmap string string) (content : string) :
  fs !! filename = Some content →
  Forall (λ l, Py.strip l = EmptyString
               ∨ ∃ c, Life.parse_line (Py.strip l) = Py.Returned c)
         (Py.file_lines content) →
  Life.raised (Life.load_pattern g filename fs) = None
  ∧ Life.printed (Life.load_pattern g filename fs) = []
  ∧ ∀ c, c ∈ Life.live_cells (Life.game (Life.load_pattern g filename fs)) ↔
      LifeSpec.in_grid (Life.width g) (Life.height g) c
      ∧ ∃ l, l ∈ Py.file_lines content
             ∧ Life.parse_line (Py.strip l) = Py.Returned c.
Proof.
  intros Hfile Hok. unfold Life.load_pattern. rewrite Hfile.
  destruct (load_lines_well_formed _ (Life.clear g) Hok)
    as (live & Hload & Hlive).
  rewrite Hload. simpl. split; [reflexivity|]. split; [reflexivity|].
  intros c. rewrite Hlive. simpl. split.
  - intros [Hc|Hc]; [by apply not_elem_of_empty in Hc|exact Hc].
  - intros Hc. right. exact Hc.
Qed.

(** The lines ["100,100"], [""] and [" 3 , 4 "] loaded into a 10×10
    engine raise nothing. *)
Lemma load_pattern_well_formed_witness :
  Life.raised
    (Life.load_pattern Examples.empty_10x10 Examples.patterns_txt
       {[ Examples.patterns_txt := Examples.mixed_text ]})
  = None.
Proof.
  apply (load_pattern_well_formed Examples.empty_10x10 Examples.patterns_txt
           {[ Examples.patterns_txt := Examples.mixed_text ]}
           Examples.mixed_text).
  - apply lookup_singleton_eq.
  - let lines := eval vm_compute in (Py.file_lines Examples.mixed_text) in
    change (Py.file_lines Examples.mixed_text) with lines.
    apply Forall_cons_2; [right; exists (100, 100); reflexivity|].
    apply Forall_cons_2; [left; reflexivity|].
    apply Forall_cons_2; [right; exists (3, 4); reflexivity|].
    apply Forall_nil_2.
Defined.

(** What that load leaves: the cell (3,4) alone. *)
Lemma load_pattern_mixed_file :
  Life.live_cells
    (Life.game
       (Life.load_pattern Examples.empty_10x10 Examples.patterns_txt
          {[ Examples.patterns_txt := Examples.mixed_text ]}))
  = {[ (3, 4) ]}.
Proof.
  unfold Life.load_pattern. rewrite lookup_singleton_eq.
  vm_compute. reflexivity.
Qed.

(** X9: [parse_line] returns a cell only for a line with exactly one
    comma, whose two sides [int] converts to the two coordinates. *)
Theorem parse_line_returns (line : string) (x y : Z) :
  Life.parse_line line = Py.Returned (x, y) →
  ∃ p0 p1 : string,
    line = p0 +:+ String ","%char p1
    ∧ TextSpec.all_chars (λ c, negb (bool_decide (c = ","%char))) p0 = true
    ∧ TextSpec.all_chars (λ c, negb (bool_decide (c = ","%char))) p1 = true
    ∧ Py.int p0 = Py.Returned x
    ∧ Py.int p1 = Py.Returned y.
Proof.
  unfold Life.parse_line.
  destruct (Py.split ","%char line) as [|p0 [|p1 [|p2 rest]]] eqn:Hsplit;
    try discriminate.
  - destruct (Py.int p0); discriminate.
  - destruct (Py.int p0) as [x'|] eqn:H0; [|discriminate].
    destruct (Py.int p1) as [y'|] eqn:H1; [|discriminate].
    intros [= -> ->]. exists p0, p1.
    apply split_two in Hsplit as (Hline & Hp0 & Hp1). tauto.
  - destruct (Py.int p0); [|discriminate].
    destruct (Py.int p1); [|discriminate].
    destruct (Py.int p2); discriminate.
Qed.

(** The line [" 3 , 4 "] without its outer spaces. *)
Lemma parse_line_returns_witness :
  ∃ p0 p1 : string,
    "3 , 4" = p0 +:+ String ","%char p1
    ∧ TextSpec.all_chars (λ c, negb (bool_decide (c = ","%char))) p0 = true
    ∧ TextSpec.all_chars (λ c, negb (bool_decide (c = ","%char))) p1 = true
    ∧ Py.int p0 = Py.Returned 3
    ∧ Py.int p1 = Py.Returned 4.
Proof. apply (parse_line_returns "3 , 4" 3 4). reflexivity. Defined.

(** X10: the pattern file determines the live-cell set.  Two engines
    whose saved files have the same text have the same live cells,
    whatever their bounds and counters. *)
Theorem save_pattern_injective (g1 g2 : Life.GameOfLife)
    (filename : string) (fs1 fs2 : gmap string string) :
  Life.save_pattern g1 filename fs1 !! filename
  = Life.save_pattern g2 filename fs2 !! filename →
  Life.live_cells g1 = Life.live_cells g2.
Proof.
  unfold Life.save_pattern, Life.pattern_lines.
  rewrite !lookup_insert_eq. intros [= Htext].
  apply (f_equal Py.file_lines) in Htext.
  rewrite !file_lines_written in Htext.
  apply fmap_pattern_line_inj in Htext.
  rewrite <- (list_to_set_sorted (Life.live_cells g1)).
  rewrite <- (list_to_set_sorted (Life.live_cells g2)).
  rewrite Htext. reflexivity.
Qed.

(** The blinker saved from a 5×5 and from a 10×10 engine. *)
Lemma save_pattern_injective_witness :
  Life.live_cells Examples.blinker_5x5
  = Life.live_cells (Life.mkGame 10 10 Examples.horizontal 3 false).
Proof.
  apply (save_pattern_injective Examples.blinker_5x5
           (Life.mkGame 10 10 Examples.horizontal 3 false)
           Examples.patterns_txt ∅ ∅).
  reflexivity.
Defined.

(** X11: [initialize_random] calls [random.random()] once per cell of
    the grid, whatever the density and the draws: [height * width] times
    when both are positive, never otherwise. *)
Theorem initialize_random_calls
    {float : Type} (flt : float → float → bool) (draws : nat → float)
    (g : Life.GameOfLife) (density : float) (calls : nat) :
  (Life.initialize_random flt draws g density calls).2
  = (calls + Z.to_nat (Life.height g) * Z.to_nat (Life.width g))%nat.
Proof.
  pose proof (initialize_random_spec flt draws density g calls) as H.
  cbv zeta in H. tauto.
Qed.

(** X12: when the comparison with [density] comes out the same way [b]
    for every draw, [initialize_random] leaves every cell of the grid
    live ([b] true, as for a density of 1.0 or more) or none ([b] false,
    as for a density of 0.0 or less). *)
Theorem initialize_random_uniform
    {float : Type} (flt : float → float → bool) (draws : nat → float)
    (g : Life.GameOfLife) (density : float) (calls : nat) (b : bool) :
  (∀ k, flt (draws k) density = b) →
  ∀ c : cell,
    c ∈ Life.live_cells (Life.initialize_random flt draws g density calls).1
    ↔ b = true ∧ LifeSpec.in_grid (Life.width g) (Life.height g) c.
Proof.
  intros Hall c.
  pose proof (initialize_random_spec flt draws density g calls)
    as (_ & _ & _ & _ & Hlive).
  rewrite Hlive, Hall. tauto.
Qed.

(** Draws of 0.5 against a density of 1.0 fill the 5×5 grid. *)
Lemma initialize_random_uniform_witness :
  (4, 4) ∈ Life.live_cells
    (Life.initialize_random PrimFloat.ltb Examples.draws_half
       Examples.empty_5x5 1%float 0).1.
Proof.
  apply (initialize_random_uniform PrimFloat.ltb Examples.draws_half
           Examples.empty_5x5 1%float 0 true).
  - intros k. reflexivity.
  - split; [reflexivity|]. unfold LifeSpec.in_grid. simpl. lia.
Defined.

(** * Properties of the event loop *)

Section mouse.
Import Py Life LifeSpec Main.
Variable a : args.

Lemma toggle_returns (s : loop_state) (x y : Z) :
  toggle s x y
  = (set_game s
       (set_live_cells (the_game s)
          (if decide ((x, y) ∈ live_cells (the_game s))
           then live_cells (the_game s) ∖ {[ (x, y) ]}
           else {[ (x, y) ]} ∪ live_cells (the_game s))),
     None).
Proof.
  unfold toggle. case_decide as Hin.
  - rewrite toggle_cell_live by exact Hin. reflexivity.
  - rewrite toggle_cell_dead by exact Hin. reflexivity.
Qed.

(** Membership after a toggle of the cell [t]. *)
Lemma elem_of_toggled (live : gset cell) (t c : cell) :
  c ∈ (if decide (t ∈ live) then live ∖ {[ t ]} else {[ t ]} ∪ live)
  ↔ (c = t ∧ t ∉ live) ∨ (c ≠ t ∧ c ∈ live).
Proof.
  case_decide as Hin.
  - rewrite elem_of_difference, elem_of_singleton. split.
    + intros [Hc Hne]. right. split; assumption.
    + intros [[_ Hout]|[Hne Hc]]; [contradiction|split; assumption].
  - rewrite elem_of_union, elem_of_singleton. split.
    + intros [->|Hc]; [left; split; [reflexivity|exact Hin]|].
      right. split; [|exact Hc]. intros ->. contradiction.
    + intros [[-> _]|[_ Hc]]; [left; reflexivity|right; exact Hc].
Qed.

Lemma cell_at_some (pos : Z * Z) (x y : Z) :
  cell_at a pos = Some (x, y) ↔
  a_cell_size a ≠ 0
  ∧ x = pos.1 `div` a_cell_size a ∧ y = pos.2 `div` a_cell_size a.
Proof.
  unfold cell_at, floordiv. case_bool_decide as Hz; simpl.
  - split; [discriminate|]. intros [? _]. contradiction.
  - split.
    + intros [= <- <-]. auto.
    + intros (_ & -> & ->). reflexivity.
Qed.

Lemma cell_at_none (pos : Z * Z) :
  cell_at a pos = None ↔ a_cell_size a = 0.
Proof.
  unfold cell_at, floordiv. case_bool_decide as Hz; simpl.
  - tauto.
  - split; [discriminate|contradiction].
Qed.

(** A position in the window lies on a row of the grid, and on a column
    that is not negative. *)
Lemma cell_at_in_window (pos : Z * Z) (x y : Z) :
  0 < a_cell_size a →
  0 ≤ pos.1 → 0 ≤ pos.2 < a_height a * a_cell_size a →
  cell_at a pos = Some (x, y) →
  0 ≤ x ∧ 0 ≤ y < a_height a.
Proof.
  intros Hcs Hx Hy Hcell. apply cell_at_some in Hcell as (_ & -> & ->).
  split; [apply Z.div_pos; lia|].
  split; [apply Z.div_pos; lia|].
  apply Z.div_lt_upper_bound; lia.
Qed.

Lemma game_in_grid_toggle (s : loop_state) (x y : Z) :
  game_in_grid a s → 0 ≤ x < a_width a → 0 ≤ y < a_height a →
  game_in_grid a (toggle s x y).1.
Proof.
  intros (HW & HH & Hlive) Hx Hy. rewrite toggle_returns. simpl.
  split; [exact HW|]. split; [exact HH|].
  intros c. case_decide; simpl.
  - rewrite elem_of_difference. intros [Hc _]. apply Hlive, Hc.
  - rewrite elem_of_union, elem_of_singleton.
    intros [->|Hc]; [simpl; lia|apply Hlive, Hc].
Qed.

Lemma game_in_grid_next_generation (s : loop_state) :
  game_in_grid a s → game_in_grid a (set_game s (next_generation (the_game s))).
Proof.
  intros (HW & HH & _). split; [exact HW|]. split; [exact HH|].
  intros c Hc. simpl in Hc. apply elem_of_next_generation in Hc as [Hc _].
  apply elem_of_candidates in Hc as [Hb _].
  apply (in_bounds_in_grid (the_game s) c) in Hb.
  unfold in_grid in Hb. rewrite HW, HH in Hb. exact Hb.
Qed.

End mouse.

Section event_loop.
Import Py Life LifeSpec Main.
Context {float : Type} (flt : float → float → bool) (draws : nat → float).
Variable default_density : float.
Variable a : args.

Lemma game_in_grid_key (s : loop_state) (k : key) :
  game_in_grid a s →
  game_in_grid a (handle_key flt draws default_density s k).1.
Proof.
  intros Hinv. pose proof Hinv as (HW & HH & Hlive).
  destruct k; simpl.
  - split; [exact HW|]. split; [exact HH|exact Hlive].
  - destruct (paused (the_game s)); simpl;
      [apply game_in_grid_next_generation|]; exact Hinv.
  - split; [exact HW|]. split; [exact HH|].
    intros c Hc. by apply not_elem_of_empty in Hc.
  - pose proof (initialize_random_spec flt draws default_density
                  (the_game s) (random_calls s))
      as (_ & HW' & HH' & _ & Hrand).
    cbv zeta in HW', HH', Hrand.
    split; [simpl; congruence|]. split; [simpl; congruence|].
    intros c Hc. simpl in Hc. apply Hrand in Hc as [Hg _].
    unfold in_grid in Hg. rewrite HW, HH in Hg. exact Hg.
  - exact Hinv.
  - unfold load_pattern.
    destruct (files s !! "patterns.txt") as [content|]; simpl.
    + pose proof (load_lines_keeps (file_lines content) (clear (the_game s)))
        as (HW' & HH' & _ & _ & Hload).
      destruct (load_lines (clear (the_game s)) (file_lines content))
        as [g' e]. simpl in *.
      split; [simpl; congruence|]. split; [simpl; congruence|].
      intros c Hc. simpl in Hc. apply Hload in Hc as [Hc|Hc].
      * by apply not_elem_of_empty in Hc.
      * unfold in_grid in Hc. rewrite HW, HH in Hc. exact Hc.
    + split; [exact HW|]. split; [exact HH|].
      intros c Hc. by apply not_elem_of_empty in Hc.
  - exact Hinv.
Qed.

Lemma game_in_grid_event (s : loop_state) (ev : event) :
  0 < a_cell_size a → in_window a ev → game_in_grid a s →
  game_in_grid a (handle_event flt draws default_density a s ev).1.
Proof.
  intros Hcs Hwin Hinv. destruct ev as [|k|button pos|button|pos|]; simpl.
  - exact Hinv.
  - apply game_in_grid_key, Hinv.
  - case_bool_decide; [|exact Hinv].
    destruct (cell_at a pos) as [[x y]|] eqn:Hcell; [|exact Hinv].
    case_bool_decide as Hx; [|exact Hinv].
    destruct Hwin as [Hpx Hpy].
    destruct (cell_at_in_window a pos x y Hcs Hpx Hpy Hcell) as [Hx0 Hy0].
    apply game_in_grid_toggle; [exact Hinv|lia|exact Hy0].
  - case_bool_decide; exact Hinv.
  - destruct (dragging s); [|exact Hinv].
    destruct (cell_at a pos) as [[x y]|] eqn:Hcell; [|exact Hinv].
    case_bool_decide as Hx; [|exact Hinv].
    destruct (negb _); [|exact Hinv].
    destruct Hwin as [Hpx Hpy].
    destruct (cell_at_in_window a pos x y Hcs Hpx Hpy Hcell) as [Hx0 Hy0].
    apply game_in_grid_toggle; [exact Hinv|lia|exact Hy0].
  - exact Hinv.
Qed.

Lemma game_in_grid_events (evs : list event) (s : loop_state) :
  0 < a_cell_size a → Forall (in_window a) evs → game_in_grid a s →
  game_in_grid a (handle_events flt draws default_density a s evs).1.
Proof.
  intros Hcs Hwin. revert s.
  induction Hwin as [|ev evs Hev _ IH]; intros s Hinv; simpl; [exact Hinv|].
  pose proof (game_in_grid_event s ev Hcs Hev Hinv) as Hstep.
  destruct (handle_event flt draws default_density a s ev) as [s' [e|]].
  - exact Hstep.
  - apply IH, Hstep.
Qed.

Lemma game_in_grid_frame (evs : list event) (s : loop_state) :
  0 < a_cell_size a → Forall (in_window a) evs → game_in_grid a s →
  game_in_grid a (frame flt draws default_density a s evs).1.
Proof.
  intros Hcs Hwin Hinv. unfold frame.
  pose proof (game_in_grid_events evs s Hcs Hwin Hinv) as Hstep.
  destruct (handle_events flt draws default_density a s evs) as [s' [e|]].
  - exact Hstep.
  - destruct (paused (the_game s')); simpl;
      [|apply game_in_grid_next_generation]; exact Hstep.
Qed.

Lemma game_in_grid_run (frames : list (list event)) (s : loop_state) :
  0 < a_cell_size a → Forall (Forall (in_window a)) frames →
  game_in_grid a s →
  game_in_grid a (run flt draws default_density a s frames).1.
Proof.
  intros Hcs Hwin. revert s.
  induction Hwin as [|evs frames Hevs _ IH]; intros s Hinv; simpl;
    [exact Hinv|].
  destruct (running s); [|exact Hinv].
  pose proof (game_in_grid_frame evs s Hcs Hevs Hinv) as Hstep.
  destruct (frame flt draws default_density a s evs) as [s' [e|]].
  - exact Hstep.
  - apply IH, Hstep.
Qed.

(** No event sets [running] again once it is false. *)
Lemma running_handle_key (s : loop_state) (k : key) :
  running (handle_key flt draws default_density s k).1 = running s.
Proof. destruct k; simpl; try reflexivity. destruct (paused _); reflexivity. Qed.

Lemma running_handle_event (s : loop_state) (ev : event) :
  running (handle_event flt draws default_density a s ev).1 = false
  ↔ ev = QUIT ∨ running s = false.
Proof.
  destruct ev as [|k|button pos|button|pos|]; simpl.
  - tauto.
  - rewrite running_handle_key. split; [tauto|]. intros [?|?]; [discriminate|done].
  - repeat (case_bool_decide || case_match || rewrite toggle_returns);
      simpl; split; try tauto; intros [?|?]; (discriminate || done).
  - case_bool_decide; simpl; split; try tauto;
      intros [?|?]; (discriminate || done).
  - repeat (case_bool_decide || case_match || rewrite toggle_returns);
      simpl; split; try tauto; intros [?|?]; (discriminate || done).
  - split; [tauto|]. intros [?|?]; [discriminate|done].
Qed.

Lemma running_handle_events (evs : list event) (s s' : loop_state) :
  handle_events flt draws default_density a s evs = (s', None) →
  running s' = false ↔ QUIT ∈ evs ∨ running s = false.
Proof.
  revert s. induction evs as [|ev evs IH]; intros s; simpl.
  - intros [= <-]. rewrite elem_of_nil. tauto.
  - pose proof (running_handle_event s ev) as Hev.
    destruct (handle_event flt draws default_density a s ev) as [s1 [e|]];
      [discriminate|].
    intros Hrest. rewrite (IH s1 Hrest), elem_of_cons. simpl in Hev.
    rewrite Hev. split.
    + intros [?|[->|?]]; auto.
    + intros [[<-|?]|?]; auto.
Qed.

Lemma run_stopped (frames : list (list event)) (s : loop_state) :
  running s = false →
  run flt draws default_density a s frames = (s, None).
Proof. intros Hstop. destruct frames; simpl; [|rewrite Hstop]; reflexivity. Qed.

End event_loop.

(** X13: [main] keeps every live cell inside the grid.  With a positive
    cell size, as long as the position of every mouse press and motion
    lies in the window (not left of it, and on one of its rows), the
    game that the loop holds has the bounds of the arguments and no live
    cell outside them, from the entry into the loop to its end, whatever
    the keys pressed and whether or not a load raises. *)
Theorem main_keeps_cells_in_grid
    {float : Type} (flt : float → float → bool) (draws : nat → float)
    (default_density : float) (a : Main.args)
    (fs : gmap string string) (calls : nat)
    (frames : list (list Main.event)) :
  0 < Main.a_cell_size a →
  Forall (Forall (Main.in_window a)) frames →
  ∃ s0, Main.enter a fs calls = Py.Returned s0
    ∧ Main.game_in_grid a s0
    ∧ Main.game_in_grid a
        (Main.run flt draws default_density a s0 frames).1.
Proof.
  intros Hcs Hwin. eexists. split; [reflexivity|].
  assert (Hinv : Main.game_in_grid a
                   (Main.mkLoop
                      (Life.mkGame (Main.a_width a) (Main.a_height a) ∅ 0 true)
                      true false true fs calls [])).
  { split; [reflexivity|]. split; [reflexivity|].
    intros c Hc. by apply not_elem_of_empty in Hc. }
  split; [exact Hinv|].
  apply game_in_grid_run; assumption.
Qed.

(** The session of three frames on the 5×5 grid with cells of 20
    pixels. *)
Lemma main_keeps_cells_in_grid_witness :
  ∃ s0, Main.enter Examples.args_5x5 ∅ 0 = Py.Returned s0
    ∧ Main.game_in_grid Examples.args_5x5 s0
    ∧ Main.game_in_grid Examples.args_5x5
        (Main.run PrimFloat.ltb Examples.draws_half Examples.density_default
                  Examples.args_5x5 s0 Examples.session).1.
Proof.
  apply (main_keeps_cells_in_grid PrimFloat.ltb Examples.draws_half
           Examples.density_default Examples.args_5x5 ∅ 0 Examples.session).
  - simpl. lia.
  - unfold Examples.session.
    repeat (apply Forall_cons_2 || apply Forall_nil_2); simpl; try exact I; lia.
Defined.

(** What that session does: the click and the drag make (2,2) and (3,2)
    live while the game is paused; after the space key the update of the
    second frame lets both die, the third frame updates once more, its
    click on the panel changes nothing, and the loop ends. *)
Lemma session_result :
  Main.run PrimFloat.ltb Examples.draws_half Examples.density_default
           Examples.args_5x5 (Examples.looping Examples.empty_5x5)
           Examples.session
  = (Main.mkLoop (Life.mkGame 5 5 ∅ 2 false)
                 false false true ∅ 0 [], None).
Proof. vm_compute. reflexivity. Qed.

(** X14: a left click on a column of the grid starts a drag and toggles
    the cell under the mouse; [drawing_live] records the state the cell
    got.  No other cell and no counter changes. *)
Theorem click_toggles_cell
    {float : Type} (flt : float → float → bool) (draws : nat → float)
    (default_density : float) (a : Main.args) (s : Main.loop_state)
    (pos : Z * Z) (x y : Z) :
  Main.cell_at a pos = Some (x, y) →
  x < Main.a_width a →
  ∃ s', Main.handle_event flt draws default_density a s
          (Main.MOUSEBUTTONDOWN 1 pos) = (s', None)
    ∧ Main.dragging s' = true
    ∧ ((x, y) ∈ Life.live_cells (Main.the_game s')
       ↔ (x, y) ∉ Life.live_cells (Main.the_game s))
    ∧ (Main.drawing_live s' = true
       ↔ (x, y) ∈ Life.live_cells (Main.the_game s'))
    ∧ (∀ c, c ≠ (x, y) →
         (c ∈ Life.live_cells (Main.the_game s')
          ↔ c ∈ Life.live_cells (Main.the_game s)))
    ∧ Life.generation (Main.the_game s') = Life.generation (Main.the_game s).
Proof.
  intros Hcell Hx. simpl. rewrite Hcell.
  rewrite (bool_decide_eq_true_2 _ Hx), toggle_returns. simpl.
  eexists. split; [reflexivity|]. simpl.
  split; [reflexivity|].
  split; [rewrite elem_of_toggled; intuition congruence|].
  split; [rewrite bool_decide_eq_true, elem_of_toggled; intuition congruence|].
  split; [|reflexivity].
  intros c Hc. rewrite elem_of_toggled. intuition congruence.
Qed.

(** A click at pixel (45,50) of the empty 5×5 grid. *)
Lemma click_toggles_cell_witness :
  ∃ s', Main.handle_event PrimFloat.ltb Examples.draws_half
          Examples.density_default Examples.args_5x5
          (Examples.looping Examples.empty_5x5)
          (Main.MOUSEBUTTONDOWN 1 (45, 50)) = (s', None)
    ∧ Main.dragging s' = true
    ∧ ((2, 2) ∈ Life.live_cells (Main.the_game s')
       ↔ (2, 2) ∉ Life.live_cells Examples.empty_5x5)
    ∧ (Main.drawing_live s' = true
       ↔ (2, 2) ∈ Life.live_cells (Main.the_game s'))
    ∧ (∀ c, c ≠ (2, 2) →
         (c ∈ Life.live_cells (Main.the_game s')
          ↔ c ∈ Life.live_cells Examples.empty_5x5))
    ∧ Life.generation (Main.the_game s') = 0.
Proof.
  apply (click_toggles_cell PrimFloat.ltb Examples.draws_half
           Examples.density_default Examples.args_5x5
           (Examples.looping Examples.empty_5x5) (45, 50) 2 2).
  - reflexivity.
  - simpl. lia.
Defined.

(** X15: a drag paints.  While dragging, a motion over a column of the
    grid leaves the cell under the mouse in the state that
    [drawing_live] names, live or dead, whatever it was before; no other
    cell, no counter and no flag of the drag changes. *)
Theorem drag_paints_cell
    {float : Type} (flt : float → float → bool) (draws : nat → float)
    (default_density : float) (a : Main.args) (s : Main.loop_state)
    (pos : Z * Z) (x y : Z) :
  Main.dragging s = true →
  Main.cell_at a pos = Some (x, y) →
  x < Main.a_width a →
  ∃ s', Main.handle_event flt draws default_density a s
          (Main.MOUSEMOTION pos) = (s', None)
    ∧ ((x, y) ∈ Life.live_cells (Main.the_game s')
       ↔ Main.drawing_live s = true)
    ∧ (∀ c, c ≠ (x, y) →
         (c ∈ Life.live_cells (Main.the_game s')
          ↔ c ∈ Life.live_cells (Main.the_game s)))
    ∧ Main.drawing_live s' = Main.drawing_live s
    ∧ Main.dragging s' = true
    ∧ Life.generation (Main.the_game s') = Life.generation (Main.the_game s).
Proof.
  intros Hdrag Hcell Hx. simpl. rewrite Hdrag, Hcell.
  rewrite (bool_decide_eq_true_2 _ Hx).
  destruct (decide ((x, y) ∈ Life.live_cells (Main.the_game s))) as [Hin|Hout];
    [rewrite (bool_decide_eq_true_2 _ Hin)
    |rewrite (bool_decide_eq_false_2 _ Hout)];
    destruct (Main.drawing_live s) eqn:Hd; simpl;
    rewrite ?toggle_returns;
    (eexists; split; [reflexivity|]); simpl;
    (split; [rewrite ?elem_of_toggled; intuition congruence|]);
    (split; [intros c Hc; rewrite ?elem_of_toggled; intuition congruence|]);
    (split; [exact Hd|]); (split; [exact Hdrag|reflexivity]).
Qed.

(** A drag over pixel (65,50) while painting cells live. *)
Lemma drag_paints_cell_witness :
  ∃ s', Main.handle_event PrimFloat.ltb Examples.draws_half
          Examples.density_default Examples.args_5x5
          (Examples.painting Examples.empty_5x5)
          (Main.MOUSEMOTION (65, 50)) = (s', None)
    ∧ ((3, 2) ∈ Life.live_cells (Main.the_game s') ↔ true = true)
    ∧ (∀ c, c ≠ (3, 2) →
         (c ∈ Life.live_cells (Main.the_game s')
          ↔ c ∈ Life.live_cells Examples.empty_5x5))
    ∧ Main.drawing_live s' = true
    ∧ Main.dragging s' = true
    ∧ Life.generation (Main.the_game s') = 0.
Proof.
  apply (drag_paints_cell PrimFloat.ltb Examples.draws_half
           Examples.density_default Examples.args_5x5
           (Examples.painting Examples.empty_5x5) (65, 50) 3 2).
  - reflexivity.
  - reflexivity.
  - simpl. lia.
Defined.

(** X16: the key S followed by the key L restores the pattern.  When
    every live cell lies inside the grid, the two keys leave the same
    live cells, set the generation to 0, raise nothing and print
    nothing; [patterns.txt] holds the saved lines. *)
Theorem save_then_load_keys
    {float : Type} (flt : float → float → bool) (draws : nat → float)
    (default_density : float) (a : Main.args) (s : Main.loop_state) :
  set_Forall (LifeSpec.in_grid (Life.width (Main.the_game s))
                               (Life.height (Main.the_game s)))
             (Life.live_cells (Main.the_game s)) →
  ∃ s', Main.handle_events flt draws default_density a s
          [Main.KEYDOWN Main.K_s; Main.KEYDOWN Main.K_l] = (s', None)
    ∧ Life.live_cells (Main.the_game s') = Life.live_cells (Main.the_game s)
    ∧ Life.generation (Main.the_game s') = 0
    ∧ Life.width (Main.the_game s') = Life.width (Main.the_game s)
    ∧ Life.height (Main.the_game s') = Life.height (Main.the_game s)
    ∧ Main.stdout s' = Main.stdout s
    ∧ Main.files s'
      = Life.save_pattern (Main.the_game s) "patterns.txt" (Main.files s).
Proof.
  intros Hin. simpl.
  unfold Life.load_pattern, Life.save_pattern, Life.pattern_lines.
  rewrite lookup_insert_eq, file_lines_written.
  rewrite load_lines_written.
  - simpl. eexists. split; [reflexivity|]. simpl.
    rewrite list_to_set_sorted, (right_id_L ∅ (∪)), app_nil_r.
    repeat split.
  - apply Forall_forall. intros c Hc. apply elem_of_sorted in Hc.
    apply Hin, Hc.
Qed.

(** The keys S and L pressed on the 5×5 blinker. *)
Lemma save_then_load_keys_witness :
  ∃ s', Main.handle_events PrimFloat.ltb Examples.draws_half
          Examples.density_default Examples.args_5x5
          (Examples.looping Examples.blinker_5x5)
          [Main.KEYDOWN Main.K_s; Main.KEYDOWN Main.K_l] = (s', None)
    ∧ Life.live_cells (Main.the_game s') = Examples.horizontal
    ∧ Life.generation (Main.the_game s') = 0
    ∧ Life.width (Main.the_game s') = 5
    ∧ Life.height (Main.the_game s') = 5
    ∧ Main.stdout s' = []
    ∧ Main.files s'
      = Life.save_pattern Examples.blinker_5x5 "patterns.txt" ∅.
Proof.
  apply (save_then_load_keys PrimFloat.ltb Examples.draws_half
           Examples.density_default Examples.args_5x5
           (Examples.looping Examples.blinker_5x5)).
  exact horizontal_in_5x5.
Defined.

(** X17: a frame whose only event is the key N advances the game by
    exactly one generation, paused or not: paused, the key steps and the
    update does not; running, the key does nothing and the update
    steps. *)
Theorem frame_with_key_n
    {float : Type} (flt : float → float → bool) (draws : nat → float)
    (default_density : float) (a : Main.args) (s : Main.loop_state) :
  Main.frame flt draws default_density a s [Main.KEYDOWN Main.K_n]
  = (Main.set_game s (Life.next_generation (Main.the_game s)), None).
Proof.
  unfold Main.frame. simpl.
  destruct (Life.paused (Main.the_game s)) eqn:Hp; simpl; rewrite Hp;
    reflexivity.
Qed.

(** X18: with a cell size of 0 every left click, and every motion during
    a drag, leaves [main] with [ZeroDivisionError] before anything
    changes; a loop that is running ends there. *)
Theorem zero_cell_size_raises
    {float : Type} (flt : float → float → bool) (draws : nat → float)
    (default_density : float) (a : Main.args) (s : Main.loop_state)
    (pos : Z * Z) (evs : list Main.event)
    (frames : list (list Main.event)) :
  Main.a_cell_size a = 0 →
  Main.handle_event flt draws default_density a s
    (Main.MOUSEBUTTONDOWN 1 pos) = (s, Some Main.ZeroDivisionError)
  ∧ (Main.dragging s = true →
     Main.handle_event flt draws default_density a s (Main.MOUSEMOTION pos)
     = (s, Some Main.ZeroDivisionError))
  ∧ (Main.running s = true →
     Main.run flt draws default_density a s
       ((Main.MOUSEBUTTONDOWN 1 pos :: evs) :: frames)
     = (s, Some Main.ZeroDivisionError)).
Proof.
  intros Hzero.
  assert (Hnone : Main.cell_at a pos = None)
    by (eapply cell_at_none; exact Hzero).
  split; [|split].
  - simpl. rewrite Hnone. reflexivity.
  - intros Hdrag. simpl. rewrite Hdrag, Hnone. reflexivity.
  - intros Hrun. simpl. unfold Main.frame. simpl.
    rewrite Hrun, Hnone. reflexivity.
Qed.

(** A click with [--cell_size 0]. *)
Lemma zero_cell_size_raises_witness :
  Main.handle_event PrimFloat.ltb Examples.draws_half
    Examples.density_default Examples.args_no_size
    (Examples.looping Examples.empty_5x5) (Main.MOUSEBUTTONDOWN 1 (45, 50))
  = (Examples.looping Examples.empty_5x5, Some Main.ZeroDivisionError).
Proof.
  destruct (zero_cell_size_raises PrimFloat.ltb Examples.draws_half
              Examples.density_default Examples.args_no_size
              (Examples.looping Examples.empty_5x5) (45, 50) [] [])
    as [Hclick _]; [reflexivity|exact Hclick].
Defined.

(** X19: closing the window ends the loop after the current frame.  When
    a frame that holds a [QUIT] event completes, the events after the
    [QUIT] and the update of that frame have still run, [running] is
    false and no later frame is read. *)
Theorem quit_ends_loop
    {float : Type} (flt : float → float → bool) (draws : nat → float)
    (default_density : float) (a : Main.args) (s s' : Main.loop_state)
    (evs : list Main.event) (frames : list (list Main.event)) :
  Main.running s = true →
  Main.QUIT ∈ evs →
  Main.frame flt draws default_density a s evs = (s', None) →
  Main.run flt draws default_density a s (evs :: frames) = (s', None)
  ∧ Main.running s' = false.
Proof.
  intros Hrun Hquit Hframe.
  assert (Hstop : Main.running s' = false).
  { unfold Main.frame in Hframe.
    destruct (Main.handle_events flt draws default_density a s evs)
      as [s1 [e|]] eqn:Hevs; [discriminate|].
    assert (Hs1 : Main.running s1 = false).
    { apply (running_handle_events flt draws default_density a evs s s1 Hevs).
      left. exact Hquit. }
    destruct (Life.paused (Main.the_game s1));
      inversion Hframe; subst; exact Hs1. }
  split; [|exact Hstop].
  simpl. rewrite Hrun, Hframe. apply run_stopped, Hstop.
Qed.

(** The last frame of the session: a click on the panel, then [QUIT]. *)
Lemma quit_ends_loop_witness :
  Main.running
    (Main.frame PrimFloat.ltb Examples.draws_half Examples.density_default
       Examples.args_5x5 (Examples.looping Examples.blinker_5x5)
       [Main.MOUSEBUTTONDOWN 1 (150, 50); Main.QUIT]).1
  = false.
Proof.
  apply (quit_ends_loop PrimFloat.ltb Examples.draws_half
           Examples.density_default Examples.args_5x5
           (Examples.looping Examples.blinker_5x5) _
           [Main.MOUSEBUTTONDOWN 1 (150, 50); Main.QUIT]
           [[Main.KEYDOWN Main.K_c]]).
  - reflexivity.
  - apply list_elem_of_further, list_elem_of_here.
  - reflexivity.
Defined.

Section small_patterns.
Import Py Life LifeSpec.

Lemma NoDup_moore_neighborhood (x y : Z) : NoDup (moore_neighborhood x y).
Proof.
  unfold moore_neighborhood.
  repeat (apply NoDup_cons_2;
          [rewrite ?not_elem_of_cons; repeat split;
           try (intros Heq; inversion Heq; lia); apply not_elem_of_nil|]).
  apply NoDup_nil_2.
Qed.

(** The count is at most the number of live cells other than the cell
    itself. *)
Lemma count_live_neighbors_le_size (g : GameOfLife) (x y : Z) :
  (Z.to_nat (count_live_neighbors g x y)
   ≤ size (live_cells g ∖ {[ (x, y) ]}))%nat.
Proof.
  rewrite count_live_neighbors_unfold, <- moore_count_unfold.
  unfold moore_count. rewrite Nat2Z.id.
  rewrite <- (size_list_to_set (C:=gset cell))
    by apply NoDup_filter, NoDup_moore_neighborhood.
  apply subseteq_size. intros p Hp.
  apply elem_of_list_to_set, list_elem_of_filter in Hp as [[_ Hlive] Hm].
  apply elem_of_difference. split; [exact Hlive|].
  rewrite elem_of_singleton. intros ->.
  by apply centre_not_in_moore in Hm.
Qed.

Lemma size_remove_live (live : gset cell) (c : cell) :
  c ∈ live → S (size (live ∖ {[ c ]})) = size live.
Proof.
  intros Hc.
  assert (Hsub : ({[ c ]} : gset cell) ⊆ live).
  { intros d Hd. apply elem_of_singleton in Hd. subst d. exact Hc. }
  pose proof (subseteq_size _ _ Hsub) as Hpos.
  rewrite (size_difference _ _ Hsub). rewrite size_singleton in *. lia.
Qed.

End small_patterns.

(** X20: a pattern of fewer than three live cells dies out in one step,
    wherever its cells are: no cell survives with fewer than two live
    neighbours and none is born with fewer than three. *)
Theorem next_generation_small_pattern_dies (g : Life.GameOfLife) :
  (size (Life.live_cells g) < 3)%nat →
  Life.live_cells (Life.next_generation g) = ∅.
Proof.
  intros Hsmall. apply set_eq. intros c. split.
  - intros Hc. apply elem_of_next_generation in Hc as [_ Hrule].
    pose proof (count_live_neighbors_le_size g c.1 c.2) as Hcount.
    destruct c as [x y]. exfalso.
    destruct Hrule as [[Hlive Hn]|[_ Hn]]; simpl in Hn, Hcount.
    + pose proof (size_remove_live _ _ Hlive). unfold cell in *. lia.
    + assert (size (Life.live_cells g ∖ {[ (x, y) ]})
              ≤ size (Life.live_cells g))%nat.
      { apply subseteq_size. intros d Hd.
        apply elem_of_difference in Hd. tauto. }
      unfold cell in *. lia.
  - intros Hc. by apply not_elem_of_empty in Hc.
Qed.

(** Two live cells side by side on the 5×5 grid. *)
Lemma next_generation_small_pattern_dies_witness :
  Life.live_cells
    (Life.next_generation (Life.mkGame 5 5 {[ (2, 2); (3, 2) ]} 0 true)) = ∅.
Proof.
  apply (next_generation_small_pattern_dies
           (Life.mkGame 5 5 {[ (2, 2); (3, 2) ]} 0 true)).
  vm_compute. lia.
Defined.

(** X21: the mouse only edits cells.  With a cell size other than 0, a
    mouse press, release or motion raises nothing and changes neither
    the generation counter, the paused flag, the bounds, the files, the
    draws made nor what was printed. *)
Theorem mouse_events_only_edit
    {float : Type} (flt : float → float → bool) (draws : nat → float)
    (default_density : float) (a : Main.args) (s : Main.loop_state)
    (ev : Main.event) :
  Main.a_cell_size a ≠ 0 →
  (∃ button pos, ev = Main.MOUSEBUTTONDOWN button pos)
  ∨ (∃ button, ev = Main.MOUSEBUTTONUP button)
  ∨ (∃ pos, ev = Main.MOUSEMOTION pos) →
  ∃ s', Main.handle_event flt draws default_density a s ev = (s', None)
    ∧ Life.generation (Main.the_game s') = Life.generation (Main.the_game s)
    ∧ Life.paused (Main.the_game s') = Life.paused (Main.the_game s)
    ∧ Life.width (Main.the_game s') = Life.width (Main.the_game s)
    ∧ Life.height (Main.the_game s') = Life.height (Main.the_game s)
    ∧ Main.files s' = Main.files s
    ∧ Main.random_calls s' = Main.random_calls s
    ∧ Main.stdout s' = Main.stdout s
    ∧ Main.running s' = Main.running s.
Proof.
  intros Hcs Hmouse.
  assert (Hcell : ∀ pos, ∃ x y, Main.cell_at a pos = Some (x, y)).
  { intros pos. eexists _, _. apply cell_at_some. eauto. }
  destruct Hmouse as [(button & pos & ->)|[(button & ->)|(pos & ->)]]; simpl.
  - case_bool_decide; [|eexists; repeat split].
    destruct (Hcell pos) as (x & y & ->).
    case_bool_decide; [|eexists; repeat split].
    rewrite toggle_returns. eexists. repeat split.
  - case_bool_decide; eexists; repeat split.
  - destruct (Main.dragging s); [|eexists; repeat split].
    destruct (Hcell pos) as (x & y & ->).
    case_bool_decide; [|eexists; repeat split].
    destruct (negb _); [|eexists; repeat split].
    rewrite toggle_returns. eexists. repeat split.
Qed.

(** A press of the right button on the 5×5 blinker. *)
Lemma mouse_events_only_edit_witness :
  ∃ s', Main.handle_event PrimFloat.ltb Examples.draws_half
          Examples.density_default Examples.args_5x5
          (Examples.looping Examples.blinker_5x5)
          (Main.MOUSEBUTTONDOWN 3 (45, 50)) = (s', None)
    ∧ Life.generation (Main.the_game s') = 0
    ∧ Life.paused (Main.the_game s') = true
    ∧ Life.width (Main.the_game s') = 5
    ∧ Life.height (Main.the_game s') = 5
    ∧ Main.files s' = ∅
    ∧ Main.random_calls s' = 0%nat
    ∧ Main.stdout s' = []
    ∧ Main.running s' = true.
Proof.
  apply (mouse_events_only_edit PrimFloat.ltb Examples.draws_half
           Examples.density_default Examples.args_5x5
           (Examples.looping Examples.blinker_5x5)
           (Main.MOUSEBUTTONDOWN 3 (45, 50))).
  - simpl. lia.
  - left. eexists _, _. reflexivity.
Defined.
